(** * goplot: line parsing, sample ingestion, linear regression, encoding

    A shallow embedding of the data-sample pipeline of goplot
    ([parseLine], [dataSampleProcess], [linearRegression]) together with
    the properties of it that the specification states.

    Conventions.
    - A Go [string] is a sequence of bytes: [gostring := list byte].
    - A Go [float64] is an IEEE 754 binary64 number: Rocq's primitive
      [float], with [+], [-], [*], [/] and [sqrt] rounding to nearest
      even, one operation at a time (no fused multiply-add).
    - A Go [error] result is an [option]: [None] is [nil].
    - The functions of the Go library that the program calls are either
      modelled ([strings.SplitN], [strings.TrimSpace], [json.Marshal] on
      the program's own struct types) or taken as parameters
      ([strconv.ParseFloat] and the number formatters). *)

From Stdlib Require Import List Strings.Byte ZArith Bool Lia.
From Stdlib Require Import Floats.
From Stdlib Require Uint63.
Import ListNotations.

(* ================================================================= *)
(** ** Go strings *)

Definition gostring := list byte.

Inductive gostring_literal :=
| lit_nil
| lit_cons (b : byte) (l : gostring_literal).

Fixpoint literal_of_bytes (l : list byte) : gostring_literal :=
  match l with
  | [] => lit_nil
  | b :: r => lit_cons b (literal_of_bytes r)
  end.

Fixpoint bytes_of_literal (l : gostring_literal) : list byte :=
  match l with
  | lit_nil => []
  | lit_cons b r => b :: bytes_of_literal r
  end.

Declare Scope gostring_scope.
Delimit Scope gostring_scope with go.
#[warning="-via-type-remapping,-via-type-mismatch"]
String Notation gostring literal_of_bytes bytes_of_literal
  (via gostring_literal mapping [[nil] => lit_nil, [cons] => lit_cons])
  : gostring_scope.
Bind Scope gostring_scope with gostring.

(** The line feed, written ["\n"] in the Go source. *)
Definition newline : byte := x0a.

Module strings.

(** [stripPrefix p s] is [Some r] when [s = p ++ r]. *)
Fixpoint stripPrefix (p s : gostring) : option gostring :=
  match p, s with
  | [], _ => Some s
  | a :: p', b :: s' => if Byte.eqb a b then stripPrefix p' s' else None
  | _ :: _, [] => None
  end.

(** [strings.Index] for a one-byte separator, returned as the two
    slices [s[:m]] and [s[m+1:]] that [genSplit] takes around the
    first occurrence; [None] when the separator does not occur
    ([m < 0]). *)
Fixpoint cut (sep : byte) (s : gostring) : option (gostring * gostring) :=
  match s with
  | [] => None
  | b :: s' =>
      if Byte.eqb b sep then Some ([], s')
      else match cut sep s' with
           | Some (u, v) => Some (b :: u, v)
           | None => None
           end
  end.

(** The loop of [strings.genSplit]: while pieces may still be split
    off ([i < n], here [1 < n] pieces left to produce, or no limit
    when [n < 0]) and the separator occurs, emit the text before it
    and go on with the text after it; the last piece is the unsplit
    remainder.  Every round consumes a byte, so [length s] rounds
    always suffice. *)
Fixpoint genSplit (fuel : nat) (s : gostring) (sep : byte) (n : Z)
  : list gostring :=
  match fuel with
  | O => [s]
  | S fuel' =>
      if (n =? 1)%Z then [s]
      else match cut sep s with
           | None => [s]
           | Some (head, rest) => head :: genSplit fuel' rest sep (n - 1)
           end
  end.

(** [strings.SplitN(s, sep, n)] for a one-byte [sep] (the program
    passes ["\n"] and [","]): [n = 0] gives no piece at all, [n > 0]
    at most [n] pieces, [n < 0] all of them. *)
Definition SplitN (s : gostring) (sep : byte) (n : Z) : list gostring :=
  if (n =? 0)%Z then [] else genSplit (length s) s sep n.

(** The UTF-8 encodings of the code points for which
    [unicode.IsSpace] holds: tab, LF, VT, FF, CR, space, U+0085,
    U+00A0, U+1680, U+2000 to U+200A, U+2028, U+2029, U+202F, U+205F,
    U+3000. *)
Definition spaceEncodings : list gostring :=
  [ [x09]; [x0a]; [x0b]; [x0c]; [x0d]; [x20];
    [xc2; x85]; [xc2; xa0];
    [xe1; x9a; x80];
    [xe2; x80; x80]; [xe2; x80; x81]; [xe2; x80; x82]; [xe2; x80; x83];
    [xe2; x80; x84]; [xe2; x80; x85]; [xe2; x80; x86]; [xe2; x80; x87];
    [xe2; x80; x88]; [xe2; x80; x89]; [xe2; x80; x8a];
    [xe2; x80; xa8]; [xe2; x80; xa9]; [xe2; x80; xaf];
    [xe2; x81; x9f];
    [xe3; x80; x80] ].

(** The text after one leading element of [encs], if [s] starts with
    one. *)
Fixpoint stripOne (encs : list gostring) (s : gostring) : option gostring :=
  match encs with
  | [] => None
  | e :: encs' =>
      match stripPrefix e s with
      | Some r => Some r
      | None => stripOne encs' s
      end
  end.

(** Drop leading elements of [encs] for as long as there is one. *)
Fixpoint trimLeft (encs : list gostring) (fuel : nat) (s : gostring)
  : gostring :=
  match fuel with
  | O => s
  | S fuel' =>
      match stripOne encs s with
      | Some r => trimLeft encs fuel' r
      | None => s
      end
  end.

(** [strings.TrimLeftFunc(s, unicode.IsSpace)]: the rune decoded at
    the front of [s] is a space exactly when [s] starts with the
    encoding of one (a malformed sequence decodes to U+FFFD, which is
    not a space). *)
Definition TrimLeftSpace (s : gostring) : gostring :=
  trimLeft spaceEncodings (length s) s.

(** [strings.TrimRightFunc(s, unicode.IsSpace)]: the same from the
    end, where [utf8.DecodeLastRune] yields a space exactly when [s]
    ends with the encoding of one. *)
Definition TrimRightSpace (s : gostring) : gostring :=
  rev (trimLeft (map (@rev byte) spaceEncodings) (length s) (rev s)).

(** [strings.TrimSpace(s)], that is
    [TrimRightFunc(TrimLeftFunc(s, unicode.IsSpace), unicode.IsSpace)]. *)
Definition TrimSpace (s : gostring) : gostring :=
  TrimRightSpace (TrimLeftSpace s).

(** [concatOf encs s]: [s] is made of elements of [encs], one after
    the other. *)
Inductive concatOf (encs : list gostring) : gostring -> Prop :=
| concatOf_nil : concatOf encs []
| concatOf_cons (e ws : gostring) :
    In e encs -> concatOf encs ws -> concatOf encs (e ++ ws).

(** A text that consists of white space only. *)
Definition whiteSpace (s : gostring) : Prop := concatOf spaceEncodings s.

Definition startsWithSpace (s : gostring) : bool :=
  match stripOne spaceEncodings s with
  | Some _ => true
  | None => false
  end.

Definition endsWithSpace (s : gostring) : bool :=
  match stripOne (map (@rev byte) spaceEncodings) (rev s) with
  | Some _ => true
  | None => false
  end.

End strings.

(* ================================================================= *)
(** ** Points and errors *)

(** [type Point struct { X float64; Y float64 }] (the fields are [x]
    and [y] in [goplot.go], [X] and [Y] with JSON tags in the later
    revision). *)
Record Point := mkPoint { X : float; Y : float }.

(** The zero value of [Point]. *)
Definition zeroPoint : Point := mkPoint 0%float 0%float.

(** What a [*strconv.NumError] of [ParseFloat] carries. *)
Inductive NumError := ErrSyntax | ErrRange.

(** The non-nil errors [parseLine] can return. *)
Inductive error :=
| ErrNoData                 (* errors.New("parseLine: No data") *)
| ErrNum (e : NumError).    (* the error of strconv.ParseFloat *)

(* ================================================================= *)
(** ** The line parser and the ingestion loop *)

Definition MAXLINES : Z := 1000000.

Section Parsing.

(** [strconv.ParseFloat(s, 64)]: the number and the error; the number
    is also set when the error is not nil (0, or an infinity for
    [ErrRange]). *)
Variable ParseFloat : gostring -> float * option NumError.

(** [func parseLine(coords string) (p Point, err error)] *)
Definition parseLine (coords : gostring) : Point * option error :=
  if (0 <? length coords)%nat then
    let coordsAr := strings.SplitN (strings.TrimSpace coords) "," 3 in
    if (1 <? length coordsAr)%nat then
      let (px, err) := ParseFloat (nth 0 coordsAr []) in
      match err with
      | None =>
          let (py, err') := ParseFloat (nth 1 coordsAr []) in
          (mkPoint px py, option_map ErrNum err')
      | Some e => (mkPoint px 0%float, Some (ErrNum e))
      end
    else (zeroPoint, None)
  else (zeroPoint, Some ErrNoData).

(** One round of the loop over [srcLines] in [dataSampleProcess]. *)
Definition appendParsed (series : list Point) (line : gostring)
  : list Point :=
  let (stmp, err) := parseLine line in
  match err with
  | None => series ++ [stmp]
  | Some _ => series
  end.

(** The first part of [dataSampleProcess] on its own (the spec's
    [ingest]): split the buffer into lines, one per source line, and
    collect the pairs of the lines for which [parseLine] returns a nil
    error. *)
Definition ingest (src : gostring) : list Point :=
  let srcLines := strings.SplitN src newline MAXLINES in
  fold_left appendParsed srcLines [].

(** The points a line contributes to the series: the pair of
    [parseLine] when its error is nil, nothing otherwise. *)
Definition accepted (line : gostring) : list Point :=
  let (p, err) := parseLine line in
  match err with
  | None => [p]
  | Some _ => []
  end.

End Parsing.

(* ================================================================= *)
(** ** The regression engine *)

Open Scope float_scope.

(** The conversion [float64(len)] of a slice length (below [2^63]). *)
Definition float64_of_int (n : nat) : float :=
  PrimFloat.of_uint63 (Uint63.of_Z (Z.of_nat n)).

(** The body of the first loop of [linearRegression], on the running
    [sumx], [sumy], [sumxy], [sumx2]. *)
Definition sumStep (acc : float * float * float * float) (p : Point)
  : float * float * float * float :=
  let '(sumx, sumy, sumxy, sumx2) := acc in
  let x := X p in
  let y := Y p in
  (sumx + x, sumy + y, sumxy + x * y, sumx2 + x * x).

(** The body of the second loop, on the running [st] and [sr]. *)
Definition residualStep (slope intercept ymean : float)
  (acc : float * float) (p : Point) : float * float :=
  let '(st, sr) := acc in
  let x := X p in
  let y := Y p in
  (st + (y - ymean) * (y - ymean),
   sr + (y - (slope * x - intercept)) * (y - (slope * x - intercept))).

(** [func linearRegression(series []Point)
      (slope, intercept, stdError, correlation float64)] *)
Definition linearRegression (series : list Point)
  : float * float * float * float :=
  let len := length series in
  let flen := float64_of_int len in
  let '(sumx, sumy, sumxy, sumx2) := fold_left sumStep series (0, 0, 0, 0) in
  let xmean := sumx / flen in
  let ymean := sumy / flen in
  let slope := (flen * sumxy - sumx * sumy) / (flen * sumx2 - sumx * sumx) in
  let intercept := ymean - slope * xmean in
  let '(st, sr) :=
    fold_left (residualStep slope intercept ymean) series (0, 0) in
  let stdError := sqrt (sr / (flen - 2)) in
  let correlation := sqrt ((st - sr) / st) in
  (slope, intercept, stdError, correlation).

(** The spec's contract for the engine is a result or the signal
    [DegenerateSeries].  The Go function has four [float64] results
    and no [error] among them, so seen through that contract it always
    lands in [Returned]. *)
Inductive RegressOutcome :=
| Returned (r : float * float * float * float)
| DegenerateSeries.

Definition regress (series : list Point) : RegressOutcome :=
  Returned (linearRegression series).

(** *** The formulas as the specification writes them *)

(** A sum over the series, accumulated from 0 in series order. *)
Definition sigma (f : Point -> float) (series : list Point) : float :=
  fold_left (fun acc p => acc + f p) series 0.

Definition Sx := sigma X.
Definition Sy := sigma Y.
Definition Sxy := sigma (fun p => X p * Y p).
Definition Sx2 := sigma (fun p => X p * X p).

Definition slopeDenominator (series : list Point) : float :=
  let n := float64_of_int (length series) in
  n * Sx2 series - Sx series * Sx series.

Definition specSlope (series : list Point) : float :=
  let n := float64_of_int (length series) in
  (n * Sxy series - Sx series * Sy series) / slopeDenominator series.

Definition mean (S : list Point -> float) (series : list Point) : float :=
  S series / float64_of_int (length series).

Definition specIntercept (series : list Point) : float :=
  mean Sy series - specSlope series * mean Sx series.

(** St, the total sum of squares. *)
Definition St (series : list Point) : float :=
  sigma (fun p => (Y p - mean Sy series) * (Y p - mean Sy series)) series.

(** The residual of a point against the fitted value
    [slope * x - intercept]. *)
Definition residual (slope intercept : float) (p : Point) : float :=
  Y p - (slope * X p - intercept).

(** Sr, the residual sum of squares. *)
Definition Sr (series : list Point) : float :=
  sigma (fun p =>
           residual (specSlope series) (specIntercept series) p
           * residual (specSlope series) (specIntercept series) p) series.

Definition specStdError (series : list Point) : float :=
  sqrt (Sr series / (float64_of_int (length series) - 2)).

Definition specCorrelation (series : list Point) : float :=
  sqrt ((St series - Sr series) / St series).

(** The residual sum of squares against the conventional fitted value
    [slope * x + intercept], for comparison. *)
Definition SrConventional (series : list Point) : float :=
  sigma (fun p =>
           (Y p - (specSlope series * X p + specIntercept series))
           * (Y p - (specSlope series * X p + specIntercept series))) series.

(** A binary64 value that is not a finite number. *)
Definition not_a_number_SF (x : spec_float) : Prop :=
  x = S754_nan \/ exists s, x = S754_infinity s.

Close Scope float_scope.

(* ================================================================= *)
(** ** The response encoder, as [goplot.go] writes it by hand *)

Module HandWritten.
Section Encoder.

Open Scope gostring_scope.

Variable ParseFloat : gostring -> float * option NumError.

(** [strconv.FormatFloat(f, fmt, prec, bitSize)] *)
Variable FormatFloat : float -> byte -> Z -> Z -> gostring.

(** What the verb [%f] of [fmt.Sprintf] writes for a [float64]. *)
Variable Sprintf_f : float -> gostring.

(** One round of the loop over [series]: [jsonStr += "{x:" + ... ]. *)
Definition appendPoint (jsonStr : gostring) (p : Point) : gostring :=
  jsonStr ++ ("{x:" ++ FormatFloat (X p) "f" 3 64
              ++ ",y:" ++ FormatFloat (Y p) "f" 3 64 ++ "},").

(** [func dataSampleProcess(src string) (results string)] of
    [goplot.go]. *)
Definition dataSampleProcess (src : gostring) : gostring :=
  let srcLines := strings.SplitN src newline MAXLINES in
  let series := fold_left (appendParsed ParseFloat) srcLines [] in
  let jsonStr := "{series:[" in
  let jsonStr := fold_left appendPoint series jsonStr in
  let jsonStr := jsonStr ++ ("]," ++ [newline]) in
  let '(slope, intercept, stdError, correlation) :=
    linearRegression series in
  let jsonStr :=
    jsonStr ++ ("regressionLine:{slope:" ++ Sprintf_f slope
                ++ ",intercept:" ++ Sprintf_f intercept
                ++ ",stdError:" ++ Sprintf_f stdError
                ++ ",correlation:" ++ Sprintf_f correlation ++ "},") in
  let jsonStr := jsonStr ++ "}" in
  jsonStr.

(** The second part of [dataSampleProcess] on its own (the spec's
    [encode]): the text assembled from a series and the four results
    of the regression over it. *)
Definition encodeSample (series : list Point)
  (r : float * float * float * float) : gostring :=
  let jsonStr := "{series:[" in
  let jsonStr := fold_left appendPoint series jsonStr in
  let jsonStr := jsonStr ++ ("]," ++ [newline]) in
  let '(slope, intercept, stdError, correlation) := r in
  let jsonStr :=
    jsonStr ++ ("regressionLine:{slope:" ++ Sprintf_f slope
                ++ ",intercept:" ++ Sprintf_f intercept
                ++ ",stdError:" ++ Sprintf_f stdError
                ++ ",correlation:" ++ Sprintf_f correlation ++ "},") in
  let jsonStr := jsonStr ++ "}" in
  jsonStr.

End Encoder.
End HandWritten.

(* ================================================================= *)
(** ** The response encoder of the revision that uses [encoding/json] *)

Module Marshalled.

(** [type RegressionLine struct], with the tags [slope], [intercept],
    [stdError], [correlation]. *)
Record RegressionLine := mkRegressionLine {
  Slope : float;
  Intercept : float;
  StdError : float;
  Correlation : float
}.

(** [type DataSample struct], with the tags [series] and
    [regressionLine] (the second field is named [RegressionLine] in
    Go, like its type). *)
Record DataSample := mkDataSample {
  Series : list Point;
  Regression : RegressionLine
}.

(** The error of [json.Marshal] on a number JSON cannot hold. *)
Inductive MarshalError := UnsupportedValueError (v : float).

Definition quote : byte := x22.

(** A JSON object key: the tag between double quotes, then a colon. *)
Definition key (tag : gostring) : gostring :=
  [quote] ++ tag ++ [quote] ++ ":"%go.

Definition finitePoint (p : Point) : bool :=
  PrimFloat.is_finite (X p) && PrimFloat.is_finite (Y p).

(** Every number of the sample is finite. *)
Definition finiteSample (d : DataSample) : bool :=
  forallb finitePoint (Series d)
  && (PrimFloat.is_finite (Slope (Regression d))
      && (PrimFloat.is_finite (Intercept (Regression d))
          && (PrimFloat.is_finite (StdError (Regression d))
              && PrimFloat.is_finite (Correlation (Regression d))))).

(** The four numbers of the regression line, in order. *)
Definition results (d : DataSample) : float * float * float * float :=
  (Slope (Regression d), Intercept (Regression d),
   StdError (Regression d), Correlation (Regression d)).

(** The data sample that pairs a series with the four results of the
    regression over it. *)
Definition dataSampleOf (series : list Point)
  (r : float * float * float * float) : DataSample :=
  let '(slope, intercept, stdError, correlation) := r in
  mkDataSample series (mkRegressionLine slope intercept stdError correlation).

Section Encoder.

Open Scope gostring_scope.

Variable ParseFloat : gostring -> float * option NumError.

(** The text [encoding/json] writes for a finite [float64]. *)
Variable jsonNumber : float -> gostring.

Definition bind {A B : Type} (m : A + MarshalError)
  (k : A -> B + MarshalError) : B + MarshalError :=
  match m with
  | inl a => k a
  | inr e => inr e
  end.

Notation "x <- m ;; k" := (bind m (fun x => k))
  (at level 61, m at next level, right associativity).

(** The float encoder: NaN and the infinities are refused. *)
Definition marshalFloat (v : float) : gostring + MarshalError :=
  if PrimFloat.is_nan v || PrimFloat.is_infinity v
  then inr (UnsupportedValueError v)
  else inl (jsonNumber v).

(** A [Point]: its fields in declaration order under their tags. *)
Definition marshalPoint (p : Point) : gostring + MarshalError :=
  x <- marshalFloat (X p) ;;
  y <- marshalFloat (Y p) ;;
  inl ("{" ++ key "x" ++ x ++ "," ++ key "y" ++ y ++ "}").

(** The elements of a slice, separated by commas. *)
Fixpoint marshalElements (ps : list Point) : gostring + MarshalError :=
  match ps with
  | [] => inl ""
  | p :: rest =>
      a <- marshalPoint p ;;
      match rest with
      | [] => inl a
      | _ :: _ => b <- marshalElements rest ;; inl (a ++ "," ++ b)
      end
  end.

(** A slice that is not nil ([series] comes from [make]). *)
Definition marshalSeries (ps : list Point) : gostring + MarshalError :=
  body <- marshalElements ps ;;
  inl ("[" ++ body ++ "]").

Definition marshalRegressionLine (r : RegressionLine)
  : gostring + MarshalError :=
  s <- marshalFloat (Slope r) ;;
  i <- marshalFloat (Intercept r) ;;
  e <- marshalFloat (StdError r) ;;
  c <- marshalFloat (Correlation r) ;;
  inl ("{" ++ key "slope" ++ s ++ "," ++ key "intercept" ++ i ++ ","
       ++ key "stdError" ++ e ++ "," ++ key "correlation" ++ c ++ "}").

(** [json.Marshal(dataSample)]: the first value that cannot be
    encoded aborts the whole encoding. *)
Definition Marshal (d : DataSample) : gostring + MarshalError :=
  s <- marshalSeries (Series d) ;;
  r <- marshalRegressionLine (Regression d) ;;
  inl ("{" ++ key "series" ++ s ++ "," ++ key "regressionLine" ++ r ++ "}").

(** [func dataSampleProcess(src string) (results string)] of the
    revision: the response text, and what [fmt.Println(err)] has
    written to the standard output on the way. *)
Definition dataSampleProcess (src : gostring)
  : gostring * option MarshalError :=
  let srcLines := strings.SplitN src newline MAXLINES in
  let series := fold_left (appendParsed ParseFloat) srcLines [] in
  let '(slope, intercept, stdError, correlation) :=
    linearRegression series in
  let dataSample :=
    mkDataSample series
      (mkRegressionLine slope intercept stdError correlation) in
  match Marshal dataSample with
  | inr err => ("", Some err)
  | inl jsonDataSample => (jsonDataSample, None)
  end.

End Encoder.
End Marshalled.

(* ================================================================= *)
(** ** The document the specification describes *)

(** A structured document: numbers (as their text), ordered lists and
    objects with named fields. *)
#[warning="-register-all"]
Inductive Doc :=
| DNum (text : gostring)
| DList (items : list Doc)
| DObj (fields : list (gostring * Doc)).

(** [series: [{x, y}, ...]] and
    [regressionLine: {slope, intercept, stdError, correlation}], the
    numbers of the series written by [numS] and those of the regression
    line by [numR]. *)
Definition sampleDoc (numS numR : float -> gostring) (series : list Point)
  (r : float * float * float * float) : Doc :=
  let '(slope, intercept, stdError, correlation) := r in
  DObj [ ("series"%go,
          DList (map (fun p => DObj [ ("x"%go, DNum (numS (X p)));
                                      ("y"%go, DNum (numS (Y p))) ])
                   series));
         ("regressionLine"%go,
          DObj [ ("slope"%go, DNum (numR slope));
                 ("intercept"%go, DNum (numR intercept));
                 ("stdError"%go, DNum (numR stdError));
                 ("correlation"%go, DNum (numR correlation)) ]) ].

(** [join sep l]: the texts of [l] with [sep] between them. *)
Fixpoint join (sep : gostring) (l : list gostring) : gostring :=
  match l with
  | [] => []
  | [a] => a
  | a :: rest => a ++ sep ++ join sep rest
  end.

(** A field name as JSON writes it: between double quotes (byte 0x22)
    and followed by a colon. *)
Definition jsonName (name : gostring) : gostring :=
  x22 :: name ++ [x22; x3a].

(** The JSON text of a document. *)
Fixpoint renderJSON (d : Doc) : gostring :=
  match d with
  | DNum text => text
  | DList items => "["%go ++ join ","%go (map renderJSON items) ++ "]"%go
  | DObj fields =>
      "{"%go
      ++ join ","%go
           (map (fun kv => jsonName (fst kv) ++ renderJSON (snd kv)) fields)
      ++ "}"%go
  end.

(** The layout of [goplot.go]: keys without quotes; every element of a
    list and every field of the outermost object is followed by a
    comma (the first field also by a line feed), the fields of the
    inner objects are separated by commas. *)
Fixpoint renderInner (d : Doc) : gostring :=
  match d with
  | DNum text => text
  | DList items =>
      "["%go ++ concat (map (fun i => renderInner i ++ ","%go) items) ++ "]"%go
  | DObj fields =>
      "{"%go
      ++ join ","%go
           (map (fun kv => fst kv ++ ":"%go ++ renderInner (snd kv)) fields)
      ++ "}"%go
  end.

Definition renderHandWritten (d : Doc) : gostring :=
  match d with
  | DObj (f1 :: rest) =>
      "{"%go
      ++ (fst f1 ++ ":"%go ++ renderInner (snd f1) ++ ","%go ++ [newline])
      ++ concat (map (fun kv => fst kv ++ ":"%go ++ renderInner (snd kv)
                                ++ ","%go) rest)
      ++ "}"%go
  | _ => renderInner d
  end.

(** The fields of a document at its top level. *)
Definition topLevelFields (d : Doc) : list gostring :=
  match d with
  | DObj fields => map fst fields
  | _ => []
  end.

(* ================================================================= *)
(** ** An instance of [ParseFloat] for the examples *)

Module Decimal.

(** The value of a decimal digit. *)
Definition digit (b : byte) : option Z :=
  let n := Z.of_N (Byte.to_N b) in
  if ((48 <=? n) && (n <=? 57))%Z then Some (n - 48)%Z else None.

(** Read digits off the front of [s]: the number read so far, how
    many digits it has, and the text left. *)
Fixpoint digits (s : gostring) (acc : Z) (count : nat)
  : Z * nat * gostring :=
  match s with
  | [] => (acc, count, [])
  | b :: s' =>
      match digit b with
      | Some d => digits s' (10 * acc + d)%Z (S count)
      | None => (acc, count, s)
      end
  end.

Definition float64_of_Z (z : Z) : float :=
  PrimFloat.of_uint63 (Uint63.of_Z z).

(** [strconv.ParseFloat(s, 64)] on plain decimal literals: an
    optional sign, digits, an optional point and more digits, at
    least one and at most 15 digits in all.  The mantissa is then
    below [2^53] and the power of ten at most [10^15], both binary64
    numbers, and Go returns their correctly rounded quotient (its
    exact path).  Every other text is answered with [ErrSyntax] here;
    Go does so for texts that are not numbers, but it also reads
    exponents, long literals, hexadecimal literals, infinities and
    NaN, which this instance leaves out. *)
Definition ParseFloat (s : gostring) : float * option NumError :=
  let '(neg, body) :=
    match s with
    | x2d :: r => (true, r)
    | x2b :: r => (false, r)
    | _ => (false, s)
    end in
  let '(int, nint, afterInt) := digits body 0%Z O in
  let '(mant, nall, rest) :=
    match afterInt with
    | x2e :: r => digits r int nint
    | _ => (int, nint, afterInt)
    end in
  let nfrac := (nall - nint)%nat in
  match rest with
  | [] =>
      if ((0 <? nall) && (nall <=? 15))%nat then
        let m := float64_of_Z mant in
        let m := if neg then PrimFloat.opp m else m in
        let v := if (nfrac =? 0)%nat then m
                 else PrimFloat.div m (float64_of_Z (10 ^ Z.of_nat nfrac)) in
        (v, None)
      else (0%float, Some ErrSyntax)
  | _ :: _ => (0%float, Some ErrSyntax)
  end.

End Decimal.

(* ================================================================= *)
(** ** The line split, seen as a whole *)

(** How often a byte occurs in a text. *)
Fixpoint countByte (sep : byte) (s : gostring) : nat :=
  match s with
  | [] => O
  | b :: s' => (if Byte.eqb b sep then 1 else 0) + countByte sep s'
  end.

(** The pieces of a text between all the occurrences of a separator,
    by recursion on the text. *)
Fixpoint splitAll (sep : byte) (s : gostring) : list gostring :=
  match s with
  | [] => [[]]
  | b :: s' =>
      if Byte.eqb b sep then [] :: splitAll sep s'
      else match splitAll sep s' with
           | piece :: pieces => (b :: piece) :: pieces
           | [] => [[b]]
           end
  end.

(** No encoding of [encs] has, after its first byte, a byte that
    starts an encoding of [encs]. *)
Definition spanFree (encs : list gostring) : bool :=
  forallb (fun e =>
             forallb (fun c =>
                        forallb (fun e' =>
                                   match e' with
                                   | [] => true
                                   | c' :: _ => negb (Byte.eqb c c')
                                   end) encs)
               (tl e)) encs.

(* ================================================================= *)
(** ** Requests and replies *)

(** Equality of two Go strings, as [==] and [switch] decide it. *)
Fixpoint gostring_eqb (a b : gostring) : bool :=
  match a, b with
  | [], [] => true
  | x :: a', y :: b' => Byte.eqb x y && gostring_eqb a' b'
  | _, _ => false
  end.

(** What the handlers read of a [*http.Request]: [req.Method] and
    [req.FormValue(key)], which is the empty string for a key that the
    form does not hold. *)
Record Request := mkRequest {
  Method : gostring;
  FormValue : gostring -> gostring
}.

(** What a handler does to its [http.ResponseWriter]; every path of
    the handlers of the program does exactly one of these. *)
Inductive Reply :=
| ServeFile (name : gostring)    (* http.ServeFile(c, req, name) *)
| WriteHeader (code : Z)         (* c.WriteHeader(code) *)
| Fprint (text : gostring).      (* fmt.Fprint(c, text), fmt.Fprintf *)

(** [http.StatusInternalServerError] and
    [http.StatusMethodNotAllowed]. *)
Definition StatusInternalServerError : Z := 500.
Definition StatusMethodNotAllowed : Z := 405.

(** A non-nil error of [os.Getwd]. *)
Inductive OSError := GetwdError.

(* ================================================================= *)
(** ** The demo point *)

Module PointDemo.
Section Methods.

Open Scope gostring_scope.

Variable ParseFloat : gostring -> float * option NumError.

(** What the verb [%f] of [fmt.Sprintf] writes for a [float64]. *)
Variable Sprintf_f : float -> gostring.

(** [func (pt *Point) String() string] *)
Definition String (pt : Point) : gostring :=
  "(" ++ Sprintf_f (X pt) ++ "," ++ Sprintf_f (Y pt) ++ ")".

(** [func (pt *Point) ServeHTTP(c http.ResponseWriter, req *http.Request)]:
    the point after the request and what is written to [c]. *)
Definition ServeHTTP (pt : Point) (req : Request) : Point * Reply :=
  let pt :=
    if gostring_eqb (Method req) "GET" then
      mkPoint (X pt + 1)%float (Y pt)
    else if gostring_eqb (Method req) "POST" then
      let (x, _) := ParseFloat (FormValue req "x") in
      let pt := mkPoint x (Y pt) in
      let (y, _) := ParseFloat (FormValue req "y") in
      mkPoint (X pt) y
    else pt in
  (pt,
   Fprint ("point is (" ++ Sprintf_f (X pt) ++ "," ++ Sprintf_f (Y pt)
           ++ ")" ++ [newline])).

(** The point after a run of requests served one after the other
    (the one [*Point] that [main] registers is shared by all of
    them). *)
Definition serveAll (pt : Point) (reqs : list Request) : Point :=
  fold_left (fun pt req => fst (ServeHTTP pt req)) reqs pt.

End Methods.
End PointDemo.

(* ================================================================= *)
(** ** The handlers *)

Section Handlers.

Open Scope gostring_scope.

(** [os.Getwd()]: the directory and the error. *)
Variable Getwd : gostring * option OSError.

(** [dataSampleProcess] of the revision at hand. *)
Variable dataSampleProcess : gostring -> gostring.

(** [func serveError(c http.ResponseWriter, req *http.Request, code int)] *)
Definition serveError (req : Request) (code : Z) : Reply :=
  WriteHeader code.

(** [func fileServe(c http.ResponseWriter, req *http.Request)] *)
Definition fileServe (req : Request) : Reply :=
  let (cwd, err) := Getwd in
  match err with
  | None => ServeFile (cwd ++ "/client/graph.js")
  | Some _ => serveError req StatusInternalServerError
  end.

(** [func dataSampleServer(c http.ResponseWriter, req *http.Request)] *)
Definition dataSampleServer (req : Request) : Reply :=
  if gostring_eqb (Method req) "GET" then
    let (cwd, err) := Getwd in
    match err with
    | None => ServeFile (cwd ++ "/client/viz.html")
    | Some _ => serveError req StatusInternalServerError
    end
  else if gostring_eqb (Method req) "POST" then
    let src := FormValue req "dataseries" in
    let result := dataSampleProcess src in
    Fprint result
  else serveError req StatusMethodNotAllowed.

End Handlers.

(* ================================================================= *)
(** * Properties *)

(** ** Splitting *)

Module SplitFacts.
Import strings.

Lemma cut_absent (sep : byte) (s : gostring) :
  ~ In sep s -> cut sep s = None.
Proof.
  induction s as [|b s IH]; simpl; intros Hn; [reflexivity|].
  destruct (Byte.eqb b sep) eqn:E.
  - apply Byte.byte_dec_bl in E. subst. exfalso. apply Hn. now left.
  - rewrite IH; [reflexivity|]. intros Hin. apply Hn. now right.
Qed.

Lemma cut_first (sep : byte) (u v : gostring) :
  ~ In sep u -> cut sep (u ++ sep :: v) = Some (u, v).
Proof.
  induction u as [|b u IH]; simpl; intros Hn.
  - now rewrite (Byte.byte_dec_lb (eq_refl sep)).
  - destruct (Byte.eqb b sep) eqn:E.
    + apply Byte.byte_dec_bl in E. subst. exfalso. apply Hn. now left.
    + rewrite IH; [reflexivity|]. intros Hin. apply Hn. now right.
Qed.

(** With no separator left, the loop ends with the text as its last
    piece, whatever the fuel. *)
Lemma genSplit_last (fuel : nat) (s : gostring) (sep : byte) (n : Z) :
  ~ In sep s -> genSplit fuel s sep n = [s].
Proof.
  intros Hn. destruct fuel; simpl; [reflexivity|].
  destruct (n =? 1)%Z; [reflexivity|]. now rewrite cut_absent.
Qed.

Lemma genSplit_limit (fuel : nat) (s : gostring) (sep : byte) :
  genSplit fuel s sep 1 = [s].
Proof. destruct fuel; reflexivity. Qed.

(** Two fields: [f1,f2]. *)
Lemma SplitN_two_fields (f1 f2 : gostring) :
  ~ In ","%byte f1 -> ~ In ","%byte f2 ->
  SplitN (f1 ++ ","%byte :: f2) "," 3 = [f1; f2].
Proof.
  intros H1 H2. unfold SplitN. simpl (3 =? 0)%Z. cbv iota.
  rewrite length_app. simpl length. rewrite Nat.add_succ_r.
  simpl genSplit. rewrite (cut_first _ _ _ H1).
  now rewrite genSplit_last.
Qed.

(** Three fields or more: [f1,f2,rest]; the third piece is the
    unsplit rest. *)
Lemma SplitN_three_fields (f1 f2 rest : gostring) :
  ~ In ","%byte f1 -> ~ In ","%byte f2 ->
  SplitN (f1 ++ ","%byte :: f2 ++ ","%byte :: rest) "," 3 = [f1; f2; rest].
Proof.
  intros H1 H2. unfold SplitN. simpl (3 =? 0)%Z. cbv iota.
  rewrite length_app. simpl length. rewrite Nat.add_succ_r.
  simpl genSplit. rewrite (cut_first _ _ _ H1).
  rewrite length_app. simpl length. rewrite Nat.add_succ_r.
  rewrite <- plus_n_Sm. simpl genSplit. rewrite (cut_first _ _ _ H2).
  now rewrite genSplit_limit.
Qed.

Lemma SplitN_empty (sep : byte) (n : Z) :
  n <> 0%Z -> SplitN [] sep n = [[]].
Proof.
  intros Hn. unfold SplitN. apply Z.eqb_neq in Hn. now rewrite Hn.
Qed.

End SplitFacts.

(** ** Trimming *)

Module TrimFacts.
Import strings.

Section Encodings.

Variable encs : list gostring.

(** The encodings are told apart by their first bytes: a text that
    starts with one of them is stripped of exactly that one. *)
Hypothesis strip_enc :
  forall e r, In e encs -> stripOne encs (e ++ r) = Some r.
Hypothesis enc_not_empty : forall e, In e encs -> e <> [].

Lemma trimLeft_concat (ws s : gostring) :
  concatOf encs ws -> stripOne encs s = None ->
  forall fuel, (length ws <= fuel)%nat ->
  trimLeft encs fuel (ws ++ s) = s.
Proof.
  intros Hws Hs. induction Hws as [|e ws He Hws IH]; intros fuel Hfuel.
  - destruct fuel; simpl; [reflexivity|]. now rewrite Hs.
  - rewrite length_app in Hfuel.
    assert (He' : (1 <= length e)%nat).
    { pose proof (enc_not_empty e He). destruct e; simpl; [congruence|lia]. }
    destruct fuel as [|fuel]; [lia|].
    simpl. rewrite <- app_assoc, (strip_enc _ _ He).
    apply IH. lia.
Qed.

End Encodings.

(** Case analysis over the elements of a list of encodings that is
    given explicitly. *)
Ltac each_encoding H tac :=
  simpl in H; repeat (destruct H as [<- | H]; [tac|]); contradiction.

Lemma concatOf_app (encs : list gostring) (a b : gostring) :
  concatOf encs a -> concatOf encs b -> concatOf encs (a ++ b).
Proof.
  intros Ha Hb. induction Ha as [|e ws He Hws IH]; [exact Hb|].
  rewrite <- app_assoc. now constructor.
Qed.

Lemma concatOf_rev (encs : list gostring) (ws : gostring) :
  concatOf encs ws -> concatOf (map (@rev byte) encs) (rev ws).
Proof.
  intros Hws. induction Hws as [|e ws He Hws IH]; [constructor|].
  rewrite rev_app_distr. apply concatOf_app; [exact IH|].
  rewrite <- (app_nil_r (rev e)). constructor; [|constructor].
  now apply in_map.
Qed.

Lemma strip_space (e r : gostring) :
  In e spaceEncodings -> stripOne spaceEncodings (e ++ r) = Some r.
Proof. intros H. each_encoding H reflexivity. Qed.

Lemma strip_space_rev (e r : gostring) :
  In e (map (@rev byte) spaceEncodings) ->
  stripOne (map (@rev byte) spaceEncodings) (e ++ r) = Some r.
Proof. intros H. each_encoding H reflexivity. Qed.

Lemma space_not_empty (e : gostring) : In e spaceEncodings -> e <> [].
Proof. intros H. each_encoding H discriminate. Qed.

Lemma space_rev_not_empty (e : gostring) :
  In e (map (@rev byte) spaceEncodings) -> e <> [].
Proof. intros H. each_encoding H discriminate. Qed.

(** White space around a text that neither starts nor ends with
    white space is what [TrimSpace] removes. *)
Lemma TrimSpace_surrounded (lead core trail : gostring) :
  whiteSpace lead -> whiteSpace trail ->
  stripOne spaceEncodings (core ++ trail) = None ->
  endsWithSpace core = false ->
  TrimSpace (lead ++ core ++ trail) = core.
Proof.
  intros Hl Ht Hstart Hend. unfold TrimSpace.
  assert (Hleft : TrimLeftSpace (lead ++ core ++ trail) = core ++ trail).
  { unfold TrimLeftSpace.
    apply (trimLeft_concat _ strip_space space_not_empty); auto.
    rewrite length_app. lia. }
  rewrite Hleft. unfold TrimRightSpace.
  rewrite rev_app_distr.
  rewrite (trimLeft_concat _ strip_space_rev space_rev_not_empty).
  - apply rev_involutive.
  - now apply concatOf_rev.
  - unfold endsWithSpace in Hend.
    destruct (stripOne _ (rev core)); [discriminate|reflexivity].
  - rewrite length_rev, length_app. lia.
Qed.

(** A byte that occurs in no encoding ends every attempt to strip
    one. *)
Lemma stripPrefix_before (e a m : gostring) (c : byte) :
  ~ In c e -> stripPrefix e a = None -> stripPrefix e (a ++ c :: m) = None.
Proof.
  revert a. induction e as [|x e IH]; intros a Hc Ha; simpl in *.
  - discriminate.
  - destruct a as [|b a]; simpl.
    + destruct (Byte.eqb x c) eqn:E; [|reflexivity].
      apply Byte.byte_dec_bl in E. exfalso. apply Hc. now left.
    + destruct (Byte.eqb x b); [|reflexivity].
      apply IH; [|exact Ha]. intros Hin. apply Hc. now right.
Qed.

Lemma stripOne_before (encs : list gostring) (a m : gostring) (c : byte) :
  (forall e, In e encs -> ~ In c e) ->
  stripOne encs a = None -> stripOne encs (a ++ c :: m) = None.
Proof.
  induction encs as [|e encs IH]; intros Hc Ha; simpl in *; [reflexivity|].
  destruct (stripPrefix e a) eqn:E; [discriminate|].
  rewrite stripPrefix_before; auto.
Qed.

Lemma comma_not_space (e : gostring) :
  In e spaceEncodings -> ~ In ","%byte e.
Proof. intros H. each_encoding H ltac:(simpl; intuition discriminate). Qed.

Lemma comma_not_space_rev (e : gostring) :
  In e (map (@rev byte) spaceEncodings) -> ~ In ","%byte e.
Proof. intros H. each_encoding H ltac:(simpl; intuition discriminate). Qed.

(** A text with a comma in it, whose part before the first comma
    does not start with white space and whose part after the last
    comma does not end with white space, is what [TrimSpace] leaves
    of it and the white space around it. *)
Lemma TrimSpace_fields
  (lead core trail first rest front last : gostring) :
  whiteSpace lead -> whiteSpace trail ->
  core = first ++ ","%byte :: rest ->
  core = front ++ ","%byte :: last ->
  startsWithSpace first = false -> endsWithSpace last = false ->
  TrimSpace (lead ++ core ++ trail) = core.
Proof.
  intros Hl Ht Hfirst Hlast Hs He. apply TrimSpace_surrounded; auto.
  - rewrite Hfirst, <- app_assoc, <- app_comm_cons.
    apply stripOne_before; [apply comma_not_space|].
    unfold startsWithSpace in Hs.
    destruct (stripOne _ first); [discriminate|reflexivity].
  - unfold endsWithSpace in *. rewrite Hlast, rev_app_distr.
    change (rev (","%byte :: last)) with (rev last ++ [","%byte]).
    rewrite <- app_assoc.
    change ([","%byte] ++ rev front) with (","%byte :: rev front).
    destruct (stripOne _ (rev last)) eqn:E; [discriminate|].
    now rewrite (stripOne_before _ _ _ _ comma_not_space_rev E).
Qed.

End TrimFacts.

(** ** The line parser *)

Section ParseLineFacts.

Import strings.

Lemma TrimSpace_empty : TrimSpace [] = [].
Proof. reflexivity. Qed.

(** [parseLine] on a line that has text and at least two fields. *)
Lemma parseLine_fields
  (ParseFloat : gostring -> float * option NumError)
  (line f1 f2 : gostring) (more : list gostring) :
  SplitN (TrimSpace line) "," 3 = f1 :: f2 :: more ->
  parseLine ParseFloat line =
    match ParseFloat f1 with
    | (px, None) =>
        let (py, err) := ParseFloat f2 in
        (mkPoint px py, option_map ErrNum err)
    | (px, Some e) => (mkPoint px 0%float, Some (ErrNum e))
    end.
Proof.
  intros Hsplit. unfold parseLine.
  destruct line as [|b line]; [discriminate Hsplit|].
  simpl length at 1. change (0 <? S (length line))%nat with true.
  cbv iota zeta. rewrite Hsplit. reflexivity.
Qed.

Variable ParseFloat : gostring -> float * option NumError.

(** C1 (what the code does): for every line that is not empty but,
    once trimmed, splits on the comma into fewer than 2 fields,
    [parseLine] returns the zero-value pair together with a nil
    error.  No error is set on this path, so the caller cannot tell
    such a line from a line that holds the pair (0, 0). *)
Theorem parseLine_few_fields_nil_error (line : gostring) :
  (0 < length line)%nat ->
  (length (SplitN (TrimSpace line) "," 3) < 2)%nat ->
  parseLine ParseFloat line = (zeroPoint, None).
Proof.
  intros Hlen Hfields. unfold parseLine.
  apply Nat.ltb_lt in Hlen. rewrite Hlen.
  cbv zeta.
  assert (H : (1 <? length (SplitN (TrimSpace line) "," 3))%nat = false)
    by (apply Nat.ltb_ge; lia).
  now rewrite H.
Qed.

(** C9: [parseLine] returns the "No data" error exactly when the
    line, untrimmed, has length zero; and on a line that splits into
    at least 2 fields it returns the number error of field 1 when
    field 1 does not parse, and the number error of field 2 when field
    1 parses and field 2 does not.  In the first case field 2 is not
    read: the Y of the pair keeps its zero value, and the result is the
    same under every other [ParseFloat] that agrees on field 1,
    whatever it would make of field 2. *)
Theorem parseLine_error_cases (line : gostring) :
  (snd (parseLine ParseFloat line) = Some ErrNoData <-> length line = O)
  /\ (forall (f1 f2 : gostring) (more : list gostring),
        SplitN (TrimSpace line) "," 3 = f1 :: f2 :: more ->
        (forall e, snd (ParseFloat f1) = Some e ->
                   parseLine ParseFloat line
                   = (mkPoint (fst (ParseFloat f1)) 0%float,
                      Some (ErrNum e))
                   /\ (forall ParseFloat',
                         ParseFloat' f1 = ParseFloat f1 ->
                         parseLine ParseFloat' line
                         = parseLine ParseFloat line))
        /\ (forall e, snd (ParseFloat f1) = None ->
                      snd (ParseFloat f2) = Some e ->
                      parseLine ParseFloat line
                      = (mkPoint (fst (ParseFloat f1)) (fst (ParseFloat f2)),
                         Some (ErrNum e)))).
Proof.
  split.
  - split.
    + destruct line as [|b line]; [reflexivity|].
      unfold parseLine. simpl length at 1.
      change (0 <? S (length line))%nat with true. cbv iota zeta.
      destruct (1 <? length _)%nat; [|discriminate].
      destruct (ParseFloat _) as [px [e|]]; [discriminate|].
      destruct (ParseFloat _) as [py [e|]]; discriminate.
    + intros Hlen. destruct line; [reflexivity|discriminate].
  - intros f1 f2 more Hsplit.
    rewrite (parseLine_fields _ _ _ _ _ Hsplit).
    split; intros e.
    + intros He. split.
      * destruct (ParseFloat f1) as [px [e1|]]; simpl in *; congruence.
      * intros ParseFloat' Hsame.
        rewrite (parseLine_fields _ _ _ _ _ Hsplit), Hsame.
        destruct (ParseFloat f1) as [px [e1|]];
          [reflexivity | discriminate He].
    + destruct (ParseFloat f1) as [px [e1|]]; simpl; [discriminate|].
      intros _. destruct (ParseFloat f2) as [py [e2|]]; simpl; congruence.
Qed.

(** C8: a line [x,y], or [x,y,more], where the texts of [x] and [y]
    are accepted by [ParseFloat], the whole possibly surrounded by
    white space, parses without error to exactly the pair that
    [ParseFloat] gives for the two texts; what follows a second comma
    has no part in the result. *)
Theorem parseLine_valid_line
  (lead trail fx fy : gostring) (third : option gostring) (x y : float) :
  whiteSpace lead -> whiteSpace trail ->
  ~ In ","%byte fx -> ~ In ","%byte fy ->
  startsWithSpace fx = false ->
  endsWithSpace (match third with Some t => t | None => fy end) = false ->
  ParseFloat fx = (x, None) -> ParseFloat fy = (y, None) ->
  parseLine ParseFloat
    (lead
     ++ (fx ++ ","%byte :: fy
            ++ match third with Some t => ","%byte :: t | None => [] end)
     ++ trail)
  = (mkPoint x y, None).
Proof.
  intros Hl Ht Hfx Hfy Hs He Hx Hy.
  set (core := fx ++ ","%byte :: fy
                  ++ match third with Some t => ","%byte :: t | None => [] end).
  assert (Htrim : TrimSpace (lead ++ core ++ trail) = core).
  { destruct third as [t|].
    - apply (TrimFacts.TrimSpace_fields lead core trail fx
               (fy ++ ","%byte :: t) (fx ++ ","%byte :: fy) t); auto.
      unfold core. now rewrite <- app_assoc.
    - apply (TrimFacts.TrimSpace_fields lead core trail fx
               (fy ++ []) fx fy); auto.
      unfold core. now rewrite app_nil_r. }
  assert (Hsplit : exists more, SplitN core "," 3 = fx :: fy :: more).
  { unfold core. destruct third as [t|].
    - exists [t]. now apply SplitFacts.SplitN_three_fields.
    - exists []. rewrite app_nil_r. now apply SplitFacts.SplitN_two_fields. }
  destruct Hsplit as [more Hsplit].
  rewrite <- Htrim in Hsplit.
  rewrite (parseLine_fields _ _ _ _ _ Hsplit), Hx, Hy. reflexivity.
Qed.

End ParseLineFacts.

Open Scope gostring_scope.

Lemma parseLine_few_fields_witness :
  (0 < length "abc")%nat
  /\ (length (strings.SplitN (strings.TrimSpace "abc") "," 3) < 2)%nat
  /\ parseLine Decimal.ParseFloat "abc" = (zeroPoint, None).
Proof.
  assert (H1 : (0 < length "abc")%nat) by (simpl; lia).
  assert (H2 : (length (strings.SplitN (strings.TrimSpace "abc") "," 3) < 2)%nat)
    by (vm_compute; lia).
  exact (conj H1 (conj H2
           (parseLine_few_fields_nil_error Decimal.ParseFloat "abc" H1 H2))).
Defined.

(** A line of white space only takes the same path. *)
Example parseLine_blank_line :
  parseLine Decimal.ParseFloat "  " = (zeroPoint, None).
Proof. vm_compute. reflexivity. Qed.

Lemma parseLine_error_cases_witness :
  strings.SplitN (strings.TrimSpace "abc,1.0") "," 3 = ["abc"; "1.0"]
  /\ snd (Decimal.ParseFloat "abc") = Some ErrSyntax
  /\ parseLine Decimal.ParseFloat "abc,1.0"
     = (mkPoint 0%float 0%float, Some (ErrNum ErrSyntax))
  /\ strings.SplitN (strings.TrimSpace "1.0,abc") "," 3 = ["1.0"; "abc"]
  /\ snd (Decimal.ParseFloat "1.0") = None
  /\ parseLine Decimal.ParseFloat "1.0,abc"
     = (mkPoint 1%float 0%float, Some (ErrNum ErrSyntax)).
Proof.
  assert (S1 : strings.SplitN (strings.TrimSpace "abc,1.0") "," 3
               = ["abc"; "1.0"]) by reflexivity.
  assert (S2 : strings.SplitN (strings.TrimSpace "1.0,abc") "," 3
               = ["1.0"; "abc"]) by reflexivity.
  assert (E1 : snd (Decimal.ParseFloat "abc") = Some ErrSyntax) by reflexivity.
  assert (E2 : snd (Decimal.ParseFloat "1.0") = None) by reflexivity.
  assert (E3 : snd (Decimal.ParseFloat "abc") = Some ErrSyntax) by reflexivity.
  refine (conj S1 (conj E1 (conj _ (conj S2 (conj E2 _))))).
  - exact (proj1
             (proj1 (proj2 (parseLine_error_cases Decimal.ParseFloat "abc,1.0")
                       "abc" "1.0" [] S1) ErrSyntax E1)).
  - exact (proj2 (proj2 (parseLine_error_cases Decimal.ParseFloat "1.0,abc")
                    "1.0" "abc" [] S2) ErrSyntax E2 E3).
Defined.

Lemma parseLine_valid_line_witness :
  parseLine Decimal.ParseFloat (" " ++ ("1.5" ++ ","%byte :: "2.5" ++ ","%byte :: "zzz") ++ [x0d])
  = (mkPoint 1.5%float 2.5%float, None).
Proof.
  apply (parseLine_valid_line Decimal.ParseFloat " " [x0d] "1.5" "2.5"
           (Some "zzz") 1.5%float 2.5%float).
  - apply (strings.concatOf_cons _ " " []); [|constructor].
    simpl. tauto.
  - apply (strings.concatOf_cons _ [x0d] []); [|constructor].
    simpl. tauto.
  - simpl. intuition discriminate.
  - simpl. intuition discriminate.
  - reflexivity.
  - reflexivity.
  - reflexivity.
  - reflexivity.
Defined.

(** ** The ingestion loop *)

Section IngestFacts.

Variable ParseFloat : gostring -> float * option NumError.

Lemma fold_appendParsed (lines : list gostring) (series : list Point) :
  fold_left (appendParsed ParseFloat) lines series
  = series ++ flat_map (accepted ParseFloat) lines.
Proof.
  revert series. induction lines as [|line lines IH]; intros series; simpl.
  - now rewrite app_nil_r.
  - rewrite IH. unfold appendParsed, accepted.
    destruct (parseLine ParseFloat line) as [p [e|]]; simpl.
    + reflexivity.
    + now rewrite <- app_assoc.
Qed.

(** The series holds, in line order, the pairs of exactly those
    lines for which [parseLine] returns a nil error. *)
Lemma ingest_flat_map (src : gostring) :
  ingest ParseFloat src
  = flat_map (accepted ParseFloat) (strings.SplitN src newline MAXLINES).
Proof. unfold ingest. now rewrite fold_appendParsed. Qed.

Lemma accepted_length (line : gostring) :
  (length (accepted ParseFloat line) <= 1)%nat.
Proof.
  unfold accepted. destruct (parseLine ParseFloat line) as [p [e|]]; simpl; lia.
Qed.

Lemma flat_map_accepted_length (lines : list gostring) :
  (length (flat_map (accepted ParseFloat) lines) <= length lines)%nat.
Proof.
  induction lines as [|line lines IH]; simpl; [lia|].
  rewrite length_app. pose proof (accepted_length line). lia.
Qed.

Lemma flat_map_rejected (lines : list gostring) :
  (forall line, In line lines -> snd (parseLine ParseFloat line) <> None) ->
  flat_map (accepted ParseFloat) lines = [].
Proof.
  induction lines as [|line lines IH]; intros Hall; simpl; [reflexivity|].
  rewrite IH by (intros l Hl; apply Hall; now right).
  pose proof (Hall line (or_introl eq_refl)) as Hline.
  unfold accepted. destruct (parseLine ParseFloat line) as [p [e|]].
  - reflexivity.
  - now exfalso.
Qed.

Lemma ingest_rejected (src : gostring) :
  (forall line, In line (strings.SplitN src newline MAXLINES) ->
                snd (parseLine ParseFloat line) <> None) ->
  ingest ParseFloat src = [].
Proof. intros H. rewrite ingest_flat_map. now apply flat_map_rejected. Qed.

End IngestFacts.

(** C2 (where the code departs from it): on the submission
    ["1,1\n2,2\nbad line\n3,3"], three valid lines and one malformed
    line, the series has four pairs: the line without a comma is kept
    as the pair (0, 0), between the pairs of its neighbours. *)
Theorem ingest_keeps_line_without_comma :
  ingest Decimal.ParseFloat
    ("1,1" ++ newline :: "2,2" ++ newline :: "bad line" ++ newline :: "3,3")
  = [mkPoint 1 1; mkPoint 2 2; mkPoint 0 0; mkPoint 3 3]%float.
Proof. vm_compute. reflexivity. Qed.

(** C10: [ingest] returns a series for every input, with at most one
    pair per line; for the empty string, whose only line is the empty
    line that [parseLine] rejects, it is the empty series; and so it is
    for every input all of whose lines [parseLine] answers with an
    error. *)
Theorem ingest_never_fails
  (ParseFloat : gostring -> float * option NumError) :
  (forall src, exists series,
      ingest ParseFloat src = series
      /\ (length series
          <= length (strings.SplitN src newline MAXLINES))%nat)
  /\ (strings.SplitN "" newline MAXLINES = [""]
      /\ parseLine ParseFloat "" = (zeroPoint, Some ErrNoData)
      /\ ingest ParseFloat "" = [])
  /\ (forall src,
        (forall line, In line (strings.SplitN src newline MAXLINES) ->
                      snd (parseLine ParseFloat line) <> None) ->
        ingest ParseFloat src = []).
Proof.
  split; [|split].
  - intros src. eexists. split; [reflexivity|].
    rewrite ingest_flat_map. apply flat_map_accepted_length.
  - repeat split.
  - apply ingest_rejected.
Qed.

Lemma ingest_never_fails_witness :
  ingest Decimal.ParseFloat ([newline] ++ "x,y" ++ [newline] ++ "1,") = [].
Proof.
  apply (proj2 (proj2 (ingest_never_fails Decimal.ParseFloat))).
  intros line Hin. vm_compute in Hin.
  repeat (destruct Hin as [<- | Hin]; [vm_compute; discriminate|]).
  contradiction.
Defined.

(** ** The regression engine *)

Section RegressionFacts.

Open Scope float_scope.

(** The first loop keeps four independent running sums. *)
Lemma fold_sumStep (series : list Point) (a b c d : float) :
  fold_left sumStep series (a, b, c, d)
  = (fold_left (fun acc p => acc + X p) series a,
     fold_left (fun acc p => acc + Y p) series b,
     fold_left (fun acc p => acc + X p * Y p) series c,
     fold_left (fun acc p => acc + X p * X p) series d).
Proof.
  revert a b c d.
  induction series as [|p series IH]; intros a b c d; simpl;
    [reflexivity | apply IH].
Qed.

(** So does the second, with two. *)
Lemma fold_residualStep (slope intercept ymean : float)
  (series : list Point) (a b : float) :
  fold_left (residualStep slope intercept ymean) series (a, b)
  = (fold_left (fun acc p => acc + (Y p - ymean) * (Y p - ymean)) series a,
     fold_left (fun acc p =>
                  acc + residual slope intercept p
                        * residual slope intercept p) series b).
Proof.
  revert a b.
  induction series as [|p series IH]; intros a b; simpl;
    [reflexivity | apply IH].
Qed.

(** [linearRegression] computes the four quantities of the
    specification. *)
Lemma linearRegression_spec (series : list Point) :
  linearRegression series
  = (specSlope series, specIntercept series,
     specStdError series, specCorrelation series).
Proof.
  unfold linearRegression. rewrite fold_sumStep. cbv zeta iota beta.
  rewrite fold_residualStep. reflexivity.
Qed.

(** *** Division by a zero *)

Lemma is_zero_SF (d : float) :
  PrimFloat.is_zero d = true -> exists s, Prim2SF d = S754_zero s.
Proof.
  unfold PrimFloat.is_zero. rewrite FloatAxioms.eqb_spec.
  change (Prim2SF zero) with (S754_zero false).
  destruct (Prim2SF d) as [s|s| |s m e]; intros H.
  - now exists s.
  - destruct s; discriminate H.
  - discriminate H.
  - destruct s; discriminate H.
Qed.

Lemma div_zero_SF (n d : float) :
  PrimFloat.is_zero d = true -> not_a_number_SF (Prim2SF (n / d)).
Proof.
  intros Hd. destruct (is_zero_SF d Hd) as [s Hs].
  rewrite div_spec, Hs. unfold not_a_number_SF.
  destruct (Prim2SF n) as [sn|sn| |sn m e]; simpl; eauto.
Qed.

Lemma not_a_number_flag (x : float) :
  not_a_number_SF (Prim2SF x) ->
  PrimFloat.is_nan x || PrimFloat.is_infinity x = true.
Proof.
  unfold PrimFloat.is_nan, PrimFloat.is_infinity.
  rewrite !FloatAxioms.eqb_spec, abs_spec.
  change (Prim2SF infinity) with (S754_infinity false).
  intros [H | [s H]]; rewrite H; [reflexivity|].
  destruct s; reflexivity.
Qed.

(** A quotient by zero is NaN or an infinity. *)
Lemma div_zero (n d : float) :
  PrimFloat.is_zero d = true ->
  PrimFloat.is_nan (n / d) || PrimFloat.is_infinity (n / d) = true.
Proof. intros Hd. now apply not_a_number_flag, div_zero_SF. Qed.

(** And so is its square root. *)
Lemma sqrt_div_zero (n d : float) :
  PrimFloat.is_zero d = true ->
  PrimFloat.is_nan (PrimFloat.sqrt (n / d))
  || PrimFloat.is_infinity (PrimFloat.sqrt (n / d)) = true.
Proof.
  intros Hd. apply not_a_number_flag. rewrite sqrt_spec.
  destruct (div_zero_SF n d Hd) as [H | [s H]]; rewrite H.
  - now left.
  - destruct s; [now left | right; now exists false].
Qed.

End RegressionFacts.

(** C4: for every series, [linearRegression] returns
    slope = (n Sxy - Sx Sy) / (n Sx2 - Sx Sx),
    intercept = mean(y) - slope mean(x),
    standard error = sqrt (Sr / (n - 2)) and
    correlation = sqrt ((St - Sr) / St),
    with Sr the sum over the points of the squares of
    y - (slope x - intercept): the intercept is subtracted from, not
    added to, slope x.  The sign matters: on (0,1), (1,2), (2,3) the
    conventional residual sum is 0 and this one is not. *)
Theorem linearRegression_formulas :
  (forall series : list Point,
      let n := float64_of_int (length series) in
      let slope :=
        ((n * Sxy series - Sx series * Sy series)
         / (n * Sx2 series - Sx series * Sx series))%float in
      let intercept := (Sy series / n - slope * (Sx series / n))%float in
      let st :=
        sigma (fun p => (Y p - Sy series / n) * (Y p - Sy series / n))%float
          series in
      let sr :=
        sigma (fun p => (Y p - (slope * X p - intercept))
                        * (Y p - (slope * X p - intercept)))%float series in
      linearRegression series
      = (slope, intercept,
         PrimFloat.sqrt (sr / (n - 2)), PrimFloat.sqrt ((st - sr) / st))%float)
  /\ (let series := [mkPoint 0 1; mkPoint 1 2; mkPoint 2 3]%float in
      Sr series = 12%float /\ SrConventional series = 0%float).
Proof.
  split.
  - intros series. cbv zeta. apply linearRegression_spec.
  - split; vm_compute; reflexivity.
Qed.

(** C7: on the series (1,2), (2,4), (3,6) the engine returns
    slope 2, intercept 0, standard error 0 and correlation 1. *)
Theorem linearRegression_perfect_fit :
  linearRegression [mkPoint 1 2; mkPoint 2 4; mkPoint 3 6]%float
  = (2, 0, 0, 1)%float.
Proof. vm_compute. reflexivity. Qed.

(** The empty series: three of the four results are NaN. *)
Lemma linearRegression_empty :
  linearRegression [] = (nan, nan, neg_zero, nan).
Proof. vm_compute. reflexivity. Qed.

(** C3 (as stated, refuted): on the series (1,1), (1,2), whose x are
    all the same, the engine does not signal [DegenerateSeries]: it
    returns, and what it returns is four NaN. *)
Lemma regress_identical_x_returns_nan :
  regress [mkPoint 1 1; mkPoint 1 2]%float <> DegenerateSeries
  /\ regress [mkPoint 1 1; mkPoint 1 2]%float = Returned (nan, nan, nan, nan).
Proof. split; [discriminate | vm_compute; reflexivity]. Qed.

(** Likewise on (1,1), (2,1), (3,1), whose y are all the same: the
    correlation returned is NaN. *)
Example regress_identical_y :
  exists stdError,
    regress [mkPoint 1 1; mkPoint 2 1; mkPoint 3 1]%float
    = Returned (0, 1, stdError, nan)%float.
Proof. eexists. vm_compute. reflexivity. Qed.

(** C3 (amended): on a series of two or more pairs the engine has no
    signal for a zero denominator.  It returns four numbers; when the
    denominator of the slope is zero the slope it returns is NaN or an
    infinity, and when St is zero the correlation it returns is NaN or
    an infinity. *)
Theorem regress_zero_denominator_unsignalled (series : list Point) :
  (2 <= length series)%nat ->
  exists slope intercept stdError correlation,
    regress series = Returned (slope, intercept, stdError, correlation)
    /\ (PrimFloat.is_zero (slopeDenominator series) = true ->
        PrimFloat.is_nan slope || PrimFloat.is_infinity slope = true)
    /\ (PrimFloat.is_zero (St series) = true ->
        PrimFloat.is_nan correlation || PrimFloat.is_infinity correlation
        = true).
Proof.
  intros _. unfold regress. rewrite linearRegression_spec.
  do 4 eexists. split; [reflexivity|]. split.
  - apply div_zero.
  - apply sqrt_div_zero.
Qed.

Lemma regress_zero_denominator_witness :
  (2 <= length [mkPoint 1 1; mkPoint 1 2]%float)%nat
  /\ PrimFloat.is_zero (slopeDenominator [mkPoint 1 1; mkPoint 1 2]%float)
     = true
  /\ exists slope intercept stdError correlation,
      regress [mkPoint 1 1; mkPoint 1 2]%float
      = Returned (slope, intercept, stdError, correlation)
      /\ PrimFloat.is_nan slope || PrimFloat.is_infinity slope = true.
Proof.
  assert (H : (2 <= length [mkPoint 1 1; mkPoint 1 2]%float)%nat)
    by (simpl; lia).
  assert (Hz : PrimFloat.is_zero
                 (slopeDenominator [mkPoint 1 1; mkPoint 1 2]%float) = true)
    by (vm_compute; reflexivity).
  split; [exact H|]. split; [exact Hz|].
  destruct (regress_zero_denominator_unsignalled
              [mkPoint 1 1; mkPoint 1 2]%float H)
    as (slope & intercept & stdError & correlation & Hr & Hs & Hc).
  exists slope, intercept, stdError, correlation.
  split; [exact Hr | exact (Hs Hz)].
Defined.

(** ** The response encoders *)

Ltac flatten_app := simpl; repeat (rewrite <- app_assoc; simpl).

Section HandWrittenFacts.

Import HandWritten.

Variable FormatFloat : float -> byte -> Z -> Z -> gostring.
Variable Sprintf_f : float -> gostring.

Let num3 (v : float) : gostring := FormatFloat v "f" 3 64.

Let pointDoc (p : Point) : Doc :=
  DObj [ ("x"%go, DNum (num3 (X p))); ("y"%go, DNum (num3 (Y p))) ].

Let pointText (p : Point) : gostring := renderInner (pointDoc p) ++ ","%go.

Lemma appendPoint_text (jsonStr : gostring) (p : Point) :
  appendPoint FormatFloat jsonStr p = jsonStr ++ pointText p.
Proof.
  unfold appendPoint, pointText, pointDoc, num3. f_equal.
  flatten_app. reflexivity.
Qed.

Lemma fold_appendPoint (series : list Point) (jsonStr : gostring) :
  fold_left (appendPoint FormatFloat) series jsonStr
  = jsonStr ++ concat (map pointText series).
Proof.
  revert jsonStr.
  induction series as [|p series IH]; intros jsonStr; cbn [fold_left map concat].
  - now rewrite app_nil_r.
  - now rewrite IH, appendPoint_text, <- app_assoc.
Qed.

Lemma renderInner_series (series : list Point) :
  renderInner (DList (map pointDoc series))
  = "["%go ++ concat (map pointText series) ++ "]"%go.
Proof. cbn [renderInner]. now rewrite map_map. Qed.

Lemma encodeSample_layout (series : list Point)
  (r : float * float * float * float) :
  encodeSample FormatFloat Sprintf_f series r
  = renderHandWritten (sampleDoc num3 Sprintf_f series r).
Proof.
  destruct r as [[[slope intercept] stdError] correlation].
  unfold encodeSample. rewrite fold_appendPoint.
  unfold sampleDoc, renderHandWritten. cbn [fst snd].
  change (map _ series) with (map pointDoc series) at 2.
  rewrite renderInner_series.
  generalize (concat (map pointText series)). intros body.
  flatten_app. reflexivity.
Qed.

Lemma dataSampleProcess_parts
  (ParseFloat : gostring -> float * option NumError) (src : gostring) :
  dataSampleProcess ParseFloat FormatFloat Sprintf_f src
  = encodeSample FormatFloat Sprintf_f (ingest ParseFloat src)
      (linearRegression (ingest ParseFloat src)).
Proof. reflexivity. Qed.

End HandWrittenFacts.

Section MarshalledFacts.

Import Marshalled.

Variable ParseFloat : gostring -> float * option NumError.
Variable jsonNumber : float -> gostring.

Let pointDoc (p : Point) : Doc :=
  DObj [ ("x"%go, DNum (jsonNumber (X p)));
         ("y"%go, DNum (jsonNumber (Y p))) ].

Lemma marshalFloat_cases (v : float) :
  marshalFloat jsonNumber v
  = if PrimFloat.is_finite v then inl (jsonNumber v)
    else inr (UnsupportedValueError v).
Proof.
  unfold marshalFloat, PrimFloat.is_finite.
  now destruct (PrimFloat.is_nan v || PrimFloat.is_infinity v).
Qed.

Lemma marshalPoint_finite (p : Point) :
  finitePoint p = true ->
  marshalPoint jsonNumber p = inl (renderJSON (pointDoc p)).
Proof.
  unfold finitePoint, marshalPoint. rewrite !marshalFloat_cases.
  intros H. apply andb_prop in H. destruct H as [Hx Hy].
  rewrite Hx, Hy. unfold key, jsonName. flatten_app. reflexivity.
Qed.

Lemma marshalPoint_not_finite (p : Point) :
  finitePoint p = false ->
  exists v, marshalPoint jsonNumber p = inr (UnsupportedValueError v).
Proof.
  unfold finitePoint, marshalPoint. rewrite !marshalFloat_cases.
  destruct (PrimFloat.is_finite (X p)); cbn [bind andb].
  - intros Hy. rewrite Hy. now eexists.
  - intros _. now eexists.
Qed.

Lemma marshalElements_finite (ps : list Point) :
  forallb finitePoint ps = true ->
  marshalElements jsonNumber ps
  = inl (join ","%go (map renderJSON (map pointDoc ps))).
Proof.
  induction ps as [|p ps IH]; intros H; [reflexivity|].
  simpl in H. apply andb_prop in H. destruct H as [Hp Hps].
  cbn [marshalElements]. rewrite (marshalPoint_finite p Hp).
  cbn [bind]. destruct ps as [|q ps]; [reflexivity|].
  rewrite (IH Hps). reflexivity.
Qed.

Lemma marshalElements_not_finite (ps : list Point) :
  forallb finitePoint ps = false ->
  exists v, marshalElements jsonNumber ps = inr (UnsupportedValueError v).
Proof.
  induction ps as [|p ps IH]; intros H; [discriminate|].
  simpl in H. cbn [marshalElements].
  destruct (finitePoint p) eqn:Hp.
  - rewrite (marshalPoint_finite p Hp). cbn [bind].
    simpl in H. destruct (IH H) as [v Hv].
    destruct ps as [|q ps]; [discriminate|].
    rewrite Hv. now eexists.
  - destruct (marshalPoint_not_finite p Hp) as [v Hv]. rewrite Hv.
    now eexists.
Qed.

(** When every number is finite, [json.Marshal] writes the document
    of the specification. *)
Lemma Marshal_finite (d : DataSample) :
  finiteSample d = true ->
  Marshal jsonNumber d
  = inl (renderJSON
           (sampleDoc jsonNumber jsonNumber (Series d) (results d))).
Proof.
  unfold finiteSample. intros H.
  apply andb_prop in H. destruct H as [Hs H].
  apply andb_prop in H. destruct H as [H1 H].
  apply andb_prop in H. destruct H as [H2 H].
  apply andb_prop in H. destruct H as [H3 H4].
  unfold Marshal, marshalSeries, marshalRegressionLine.
  rewrite (marshalElements_finite _ Hs), !marshalFloat_cases.
  rewrite H1, H2, H3, H4. unfold results, sampleDoc.
  cbn [renderJSON map fst snd].
  change (map _ (Series d)) with (map pointDoc (Series d)).
  generalize (join ","%go (map renderJSON (map pointDoc (Series d)))).
  intros body. cbn [bind]. f_equal. unfold key, jsonName.
  flatten_app. reflexivity.
Qed.

(** Otherwise it writes nothing and returns an error. *)
Lemma Marshal_not_finite (d : DataSample) :
  finiteSample d = false ->
  exists v, Marshal jsonNumber d = inr (UnsupportedValueError v).
Proof.
  unfold finiteSample, Marshal, marshalSeries, marshalRegressionLine.
  destruct (forallb finitePoint (Series d)) eqn:Hs.
  - rewrite (marshalElements_finite _ Hs), !marshalFloat_cases.
    cbn [bind andb].
    destruct (PrimFloat.is_finite (Slope _)); cbn [bind andb];
      [|now eexists].
    destruct (PrimFloat.is_finite (Intercept _)); cbn [bind andb];
      [|now eexists].
    destruct (PrimFloat.is_finite (StdError _)); cbn [bind andb];
      [|now eexists].
    destruct (PrimFloat.is_finite (Correlation _)); cbn [bind andb];
      [discriminate | now eexists].
  - intros _. destruct (marshalElements_not_finite _ Hs) as [v Hv].
    rewrite Hv. now eexists.
Qed.

(** The response of the revision: the text of [json.Marshal], or
    nothing when it fails. *)
Lemma dataSampleProcess_Marshal (src : gostring) :
  dataSampleProcess ParseFloat jsonNumber src
  = match Marshal jsonNumber
            (dataSampleOf (ingest ParseFloat src)
               (linearRegression (ingest ParseFloat src))) with
    | inr err => ([], Some err)
    | inl jsonDataSample => (jsonDataSample, None)
    end.
Proof.
  unfold dataSampleProcess. fold (ingest ParseFloat src).
  now destruct (linearRegression (ingest ParseFloat src))
    as [[[slope intercept] stdError] correlation].
Qed.

Lemma dataSampleProcess_cases (src : gostring) :
  let series := ingest ParseFloat src in
  let r := linearRegression series in
  if finiteSample (dataSampleOf series r)
  then dataSampleProcess ParseFloat jsonNumber src
       = (renderJSON (sampleDoc jsonNumber jsonNumber series r), None)
  else fst (dataSampleProcess ParseFloat jsonNumber src) = [].
Proof.
  cbv zeta. rewrite dataSampleProcess_Marshal.
  destruct (finiteSample _) eqn:Hfin.
  - rewrite (Marshal_finite _ Hfin).
    now destruct (linearRegression (ingest ParseFloat src))
      as [[[slope intercept] stdError] correlation].
  - destruct (Marshal_not_finite _ Hfin) as [v Hv]. now rewrite Hv.
Qed.

End MarshalledFacts.

(** C5 (as stated, refuted): the submission ["0,1\n1,2\n2,3"] gives
    the series (0,1), (1,2), (2,3), three points of the line
    y = x + 1.  The regression over it has a NaN correlation, and the
    revision with [encoding/json] then writes no document at all: its
    output is the empty text, while the document of the specification
    starts with an opening brace. *)
Lemma dataSampleProcess_nan_no_document :
  let jsonNumber := fun _ : float => "0"%go in
  let src := "0,1" ++ newline :: "1,2" ++ newline :: "2,3" in
  let series := ingest Decimal.ParseFloat src in
  series = [mkPoint 0 1; mkPoint 1 2; mkPoint 2 3]%float
  /\ fst (Marshalled.dataSampleProcess Decimal.ParseFloat jsonNumber src) = ""
  /\ fst (Marshalled.dataSampleProcess Decimal.ParseFloat jsonNumber src)
     <> renderJSON
          (sampleDoc jsonNumber jsonNumber series (linearRegression series)).
Proof.
  cbv zeta. split; [vm_compute; reflexivity|].
  split; [vm_compute; reflexivity | vm_compute; discriminate].
Qed.

(** C5 (amended): for every data sample the hand-written encoder of
    [goplot.go] writes the document with the two top-level fields
    [series] (a list of objects with the fields [x] and [y]) and
    [regressionLine] (an object with the fields [slope], [intercept],
    [stdError], [correlation]); [json.Marshal] in the revision writes
    that document, as JSON, for every data sample whose numbers are all
    finite, and for every other one it returns an error and no
    document. *)
Theorem encoded_sample_document :
  (forall FormatFloat Sprintf_f series r,
      HandWritten.encodeSample FormatFloat Sprintf_f series r
      = renderHandWritten
          (sampleDoc (fun v => FormatFloat v "f"%byte 3%Z 64%Z) Sprintf_f
             series r))
  /\ (forall ParseFloat FormatFloat Sprintf_f src,
        let series := ingest ParseFloat src in
        HandWritten.dataSampleProcess ParseFloat FormatFloat Sprintf_f src
        = renderHandWritten
            (sampleDoc (fun v => FormatFloat v "f"%byte 3%Z 64%Z) Sprintf_f
               series (linearRegression series)))
  /\ (forall jsonNumber d,
        Marshalled.finiteSample d = true ->
        Marshalled.Marshal jsonNumber d
        = inl (renderJSON
                 (sampleDoc jsonNumber jsonNumber
                    (Marshalled.Series d) (Marshalled.results d))))
  /\ (forall jsonNumber d,
        Marshalled.finiteSample d = false ->
        exists v,
          Marshalled.Marshal jsonNumber d
          = inr (Marshalled.UnsupportedValueError v))
  /\ (forall ParseFloat jsonNumber src,
        let series := ingest ParseFloat src in
        let r := linearRegression series in
        if Marshalled.finiteSample (Marshalled.dataSampleOf series r)
        then Marshalled.dataSampleProcess ParseFloat jsonNumber src
             = (renderJSON (sampleDoc jsonNumber jsonNumber series r), None)
        else fst (Marshalled.dataSampleProcess ParseFloat jsonNumber src)
             = "")
  /\ (forall numS numR series r,
        topLevelFields (sampleDoc numS numR series r)
        = ["series"; "regressionLine"]).
Proof.
  split; [|split; [|split; [|split; [|split]]]].
  - intros. apply encodeSample_layout.
  - intros. cbv zeta. rewrite dataSampleProcess_parts.
    apply encodeSample_layout.
  - intros. now apply Marshal_finite.
  - intros. now apply Marshal_not_finite.
  - intros. apply dataSampleProcess_cases.
  - intros numS numR series [[[slope intercept] stdError] correlation].
    reflexivity.
Qed.

Lemma encoded_sample_document_witness :
  let d := Marshalled.mkDataSample [mkPoint 1 2; mkPoint 2 4; mkPoint 3 6]%float
             (Marshalled.mkRegressionLine 2 0 0 1)%float in
  let jsonNumber := fun _ : float => "0"%go in
  Marshalled.finiteSample d = true
  /\ Marshalled.Marshal jsonNumber d
     = inl (renderJSON
              (sampleDoc jsonNumber jsonNumber
                 (Marshalled.Series d) (Marshalled.results d))).
Proof.
  cbv zeta.
  assert (H : Marshalled.finiteSample
                (Marshalled.mkDataSample
                   [mkPoint 1 2; mkPoint 2 4; mkPoint 3 6]%float
                   (Marshalled.mkRegressionLine 2 0 0 1)%float) = true)
    by (vm_compute; reflexivity).
  split; [exact H|].
  exact (proj1 (proj2 (proj2 encoded_sample_document))
           (fun _ => "0"%go) _ H).
Defined.

(** C6: when [parseLine] returns an error for every line of the
    submission, the revision with [encoding/json] returns the empty
    text: the series is empty, the regression over it yields NaN,
    [json.Marshal] refuses NaN, and the error branch returns without a
    result (the error goes to the standard output). *)
Theorem dataSampleProcess_no_valid_line
  (ParseFloat : gostring -> float * option NumError)
  (jsonNumber : float -> gostring) (src : gostring) :
  (forall line, In line (strings.SplitN src newline MAXLINES) ->
                snd (parseLine ParseFloat line) <> None) ->
  ingest ParseFloat src = []
  /\ linearRegression [] = (nan, nan, neg_zero, nan)
  /\ Marshalled.Marshal jsonNumber
       (Marshalled.mkDataSample []
          (Marshalled.mkRegressionLine nan nan neg_zero nan))
     = inr (Marshalled.UnsupportedValueError nan)
  /\ Marshalled.dataSampleProcess ParseFloat jsonNumber src
     = ("", Some (Marshalled.UnsupportedValueError nan)).
Proof.
  intros Hall. pose proof (ingest_rejected ParseFloat src Hall) as Hin.
  split; [exact Hin|]. split; [exact linearRegression_empty|].
  split; [reflexivity|].
  unfold Marshalled.dataSampleProcess. fold (ingest ParseFloat src).
  rewrite Hin, linearRegression_empty. reflexivity.
Qed.

Lemma dataSampleProcess_no_valid_line_witness :
  Marshalled.dataSampleProcess Decimal.ParseFloat (fun _ => "0"%go) ""
  = ("", Some (Marshalled.UnsupportedValueError nan)).
Proof.
  apply (dataSampleProcess_no_valid_line Decimal.ParseFloat
           (fun _ => "0"%go) "").
  intros line Hin. vm_compute in Hin.
  destruct Hin as [<- | Hin]; [vm_compute; discriminate | contradiction].
Defined.

(* ================================================================= *)
(** * Further properties *)

(** ** The line split *)

Module SplitMore.
Import strings.

Lemma cut_found (sep : byte) (s u v : gostring) :
  cut sep s = Some (u, v) ->
  s = u ++ sep :: v /\ ~ In sep u /\ (length v < length s)%nat.
Proof.
  revert u v. induction s as [|b s IH]; intros u v H; simpl in H.
  - discriminate.
  - destruct (Byte.eqb b sep) eqn:E.
    + apply Byte.byte_dec_bl in E. injection H as <- <-. subst b.
      simpl. repeat split; auto.
    + destruct (cut sep s) as [[u' v']|]; [|discriminate].
      injection H as <- <-. destruct (IH u' v' eq_refl) as (Hs & Hu & Hl).
      repeat split.
      * simpl. now rewrite <- Hs.
      * intros [Hb | Hin]; [|now apply Hu].
        subst b. now rewrite (Byte.byte_dec_lb eq_refl) in E.
      * simpl. lia.
Qed.

Lemma cut_missing (sep : byte) (s : gostring) :
  cut sep s = None -> ~ In sep s.
Proof.
  induction s as [|b s IH]; simpl; intros H; [tauto|].
  destruct (Byte.eqb b sep) eqn:E; [discriminate|].
  destruct (cut sep s) as [[u v]|]; [discriminate|].
  intros [Hb | Hin]; [|now apply IH].
  subst b. now rewrite (Byte.byte_dec_lb eq_refl) in E.
Qed.

Lemma genSplit_not_nil (fuel : nat) (s : gostring) (sep : byte) (n : Z) :
  genSplit fuel s sep n <> [].
Proof.
  destruct fuel; simpl; [discriminate|].
  destruct (n =? 1)%Z; [discriminate|].
  destruct (cut sep s) as [[u v]|]; discriminate.
Qed.

Lemma join_cons (sep a : gostring) (l : list gostring) :
  l <> [] -> join sep (a :: l) = a ++ sep ++ join sep l.
Proof. destruct l; [congruence | reflexivity]. Qed.

(** The pieces, put together again with the separator, are the text. *)
Lemma genSplit_join (fuel : nat) (s : gostring) (sep : byte) (n : Z) :
  join [sep] (genSplit fuel s sep n) = s.
Proof.
  revert s n. induction fuel as [|fuel IH]; intros s n; simpl; [reflexivity|].
  destruct (n =? 1)%Z; [reflexivity|].
  destruct (cut sep s) as [[u v]|] eqn:E; [|reflexivity].
  rewrite join_cons by apply genSplit_not_nil.
  rewrite IH. now destruct (cut_found _ _ _ _ E) as (-> & _).
Qed.

(** At most [n] pieces. *)
Lemma genSplit_at_most (fuel : nat) (s : gostring) (sep : byte) (n : Z) :
  (0 < n)%Z -> (Z.of_nat (length (genSplit fuel s sep n)) <= n)%Z.
Proof.
  revert s n. induction fuel as [|fuel IH]; intros s n Hn; simpl; [lia|].
  destruct (n =? 1)%Z eqn:E1; [simpl; lia|].
  apply Z.eqb_neq in E1.
  destruct (cut sep s) as [[u v]|]; [|simpl; lia].
  cbn [length]. specialize (IH v (n - 1)%Z). lia.
Qed.

(** Every piece but the last is free of the separator, and the last
    one is too unless all [n] pieces have been used. *)
Lemma genSplit_pieces (fuel : nat) (s : gostring) (sep : byte) (n : Z) :
  (length s <= fuel)%nat ->
  let pieces := genSplit fuel s sep n in
  (forall piece, In piece (removelast pieces) -> ~ In sep piece)
  /\ (Z.of_nat (length pieces) <> n -> ~ In sep (last pieces [])).
Proof.
  revert s n. induction fuel as [|fuel IH]; intros s n Hfuel; cbn zeta.
  - destruct s; [|simpl in Hfuel; lia]. simpl. tauto.
  - simpl. destruct (n =? 1)%Z eqn:E1.
    + apply Z.eqb_eq in E1. simpl. split; [tauto | lia].
    + destruct (cut sep s) as [[u v]|] eqn:E.
      * destruct (cut_found _ _ _ _ E) as (Hs & Hu & Hl).
        assert (Hv : (length v <= fuel)%nat) by lia.
        destruct (IH v (n - 1)%Z Hv) as [IH1 IH2].
        pose proof (genSplit_not_nil fuel v sep (n - 1)) as Hne.
        destruct (genSplit fuel v sep (n - 1)) as [|p ps] eqn:G;
          [congruence|].
        split.
        -- intros piece Hin.
           change (removelast (u :: p :: ps)) with (u :: removelast (p :: ps))
             in Hin.
           destruct Hin as [<- | Hin]; [exact Hu | now apply IH1].
        -- intros Hlen.
           change (last (u :: p :: ps) []) with (last (p :: ps) []).
           apply IH2. cbn [length] in *. lia.
      * simpl. split; [tauto|]. intros _. now apply cut_missing.
Qed.

(** *** Splitting at every occurrence *)

Lemma splitAll_not_nil (sep : byte) (s : gostring) : splitAll sep s <> [].
Proof.
  induction s as [|b s IH]; simpl; [discriminate|].
  destruct (Byte.eqb b sep); [discriminate|].
  destruct (splitAll sep s); [congruence | discriminate].
Qed.

Lemma splitAll_whole (sep : byte) (s : gostring) :
  ~ In sep s -> splitAll sep s = [s].
Proof.
  induction s as [|b s IH]; intros Hn; simpl; [reflexivity|].
  destruct (Byte.eqb b sep) eqn:E.
  - apply Byte.byte_dec_bl in E. subst. exfalso. apply Hn. now left.
  - rewrite IH; [reflexivity|]. intros Hin. apply Hn. now right.
Qed.

Lemma splitAll_app (sep : byte) (a b : gostring) :
  splitAll sep (a ++ sep :: b) = splitAll sep a ++ splitAll sep b.
Proof.
  induction a as [|x a IH]; simpl.
  - now rewrite (Byte.byte_dec_lb eq_refl).
  - destruct (Byte.eqb x sep); rewrite IH; [reflexivity|].
    pose proof (splitAll_not_nil sep a).
    destruct (splitAll sep a); [congruence | reflexivity].
Qed.

Lemma splitAll_first (sep : byte) (u v : gostring) :
  ~ In sep u -> splitAll sep (u ++ sep :: v) = u :: splitAll sep v.
Proof. intros Hu. now rewrite splitAll_app, splitAll_whole. Qed.

Lemma countByte_app (sep : byte) (a b : gostring) :
  countByte sep (a ++ b) = (countByte sep a + countByte sep b)%nat.
Proof. induction a as [|x a IH]; simpl; [reflexivity | rewrite IH; lia]. Qed.

Lemma countByte_absent (sep : byte) (s : gostring) :
  ~ In sep s -> countByte sep s = O.
Proof.
  induction s as [|b s IH]; intros Hn; simpl; [reflexivity|].
  destruct (Byte.eqb b sep) eqn:E.
  - apply Byte.byte_dec_bl in E. subst. exfalso. apply Hn. now left.
  - rewrite IH; [reflexivity|]. intros Hin. apply Hn. now right.
Qed.

(** Below the limit the loop splits at every occurrence. *)
Lemma genSplit_all (fuel : nat) (s : gostring) (sep : byte) (n : Z) :
  (length s <= fuel)%nat ->
  (Z.of_nat (countByte sep s) < n)%Z ->
  genSplit fuel s sep n = splitAll sep s.
Proof.
  revert s n. induction fuel as [|fuel IH]; intros s n Hfuel Hn.
  - destruct s; [reflexivity | simpl in Hfuel; lia].
  - simpl. destruct (cut sep s) as [[u v]|] eqn:E.
    + destruct (cut_found _ _ _ _ E) as (Hs & Hu & Hl). subst s.
      rewrite countByte_app in Hn. simpl in Hn.
      rewrite (Byte.byte_dec_lb eq_refl) in Hn.
      destruct (n =? 1)%Z eqn:E1; [apply Z.eqb_eq in E1; lia|].
      rewrite (splitAll_first _ _ _ Hu). f_equal.
      apply IH; lia.
    + rewrite (splitAll_whole _ _ (cut_missing _ _ E)).
      now destruct (n =? 1)%Z.
Qed.

Lemma SplitN_all (s : gostring) (sep : byte) (n : Z) :
  (Z.of_nat (countByte sep s) < n)%Z -> SplitN s sep n = splitAll sep s.
Proof.
  intros Hn. unfold SplitN.
  destruct (n =? 0)%Z eqn:E0; [apply Z.eqb_eq in E0; lia|].
  now apply genSplit_all.
Qed.

End SplitMore.

(** X1: the lines into which a submission is split (and the fields
    into which a line is split) lose nothing and respect the limit:
    for a limit [n > 0] the pieces of [SplitN], joined again by the
    separator, are the text; there are between 1 and [n] of them; no
    piece but the last holds the separator, and the last one holds it
    only when all [n] pieces are used. *)
Theorem SplitN_round_trip (s : gostring) (sep : byte) (n : Z) :
  (0 < n)%Z ->
  let pieces := strings.SplitN s sep n in
  join [sep] pieces = s
  /\ (1 <= length pieces)%nat
  /\ (Z.of_nat (length pieces) <= n)%Z
  /\ (forall piece, In piece (removelast pieces) -> ~ In sep piece)
  /\ (Z.of_nat (length pieces) <> n -> ~ In sep (last pieces [])).
Proof.
  intros Hn. cbv zeta. unfold strings.SplitN.
  destruct (n =? 0)%Z eqn:E0; [apply Z.eqb_eq in E0; lia|].
  split; [apply SplitMore.genSplit_join|].
  split.
  { pose proof (SplitMore.genSplit_not_nil (length s) s sep n).
    destruct (strings.genSplit (length s) s sep n); [congruence|simpl; lia]. }
  split; [now apply SplitMore.genSplit_at_most|].
  apply (SplitMore.genSplit_pieces (length s) s sep n (le_n _)).
Qed.

Lemma SplitN_round_trip_witness :
  let pieces := strings.SplitN "1,2,3,4"%go ","%byte 3 in
  pieces = ["1"; "2"; "3,4"]%go
  /\ join [","%byte] pieces = "1,2,3,4"%go
  /\ (Z.of_nat (length pieces) <= 3)%Z.
Proof.
  cbv zeta. split; [reflexivity|].
  assert (H : (0 < 3)%Z) by lia.
  pose proof (SplitN_round_trip "1,2,3,4"%go ","%byte 3 H) as R.
  cbv zeta in R. destruct R as (R1 & _ & R3 & _).
  exact (conj R1 R3).
Defined.

(** X2: the series never holds more than [MAXLINES] pairs, whatever
    the submission. *)
Theorem ingest_at_most_MAXLINES
  (ParseFloat : gostring -> float * option NumError) (src : gostring) :
  (Z.of_nat (length (ingest ParseFloat src)) <= MAXLINES)%Z.
Proof.
  rewrite ingest_flat_map.
  pose proof (flat_map_accepted_length ParseFloat
                (strings.SplitN src newline MAXLINES)) as Hlen.
  assert (Hn : (0 < MAXLINES)%Z) by reflexivity.
  pose proof (SplitMore.genSplit_at_most (length src) src newline
                MAXLINES Hn) as Hcap.
  unfold strings.SplitN in *. change (MAXLINES =? 0)%Z with false in *.
  lia.
Qed.

(** X3: below the limit on the number of lines, a submission made of
    two parts with a line feed between them gives the series of the
    first part followed by the series of the second. *)
Theorem ingest_app
  (ParseFloat : gostring -> float * option NumError) (a b : gostring) :
  (Z.of_nat (countByte newline (a ++ newline :: b)) < MAXLINES)%Z ->
  ingest ParseFloat (a ++ newline :: b)
  = ingest ParseFloat a ++ ingest ParseFloat b.
Proof.
  intros Hn. rewrite !ingest_flat_map.
  rewrite SplitMore.countByte_app in Hn. cbn [countByte] in Hn.
  rewrite (SplitMore.SplitN_all (a ++ newline :: b))
    by (rewrite SplitMore.countByte_app; cbn [countByte]; exact Hn).
  rewrite (SplitMore.SplitN_all a) by lia.
  rewrite (SplitMore.SplitN_all b) by lia.
  now rewrite SplitMore.splitAll_app, flat_map_app.
Qed.

Lemma ingest_app_witness :
  ingest Decimal.ParseFloat ("1,1"%go ++ newline :: "x" ++ newline :: "2,2")%go
  = ingest Decimal.ParseFloat "1,1"%go
    ++ ingest Decimal.ParseFloat ("x" ++ newline :: "2,2")%go.
Proof.
  apply (ingest_app Decimal.ParseFloat "1,1"%go
           ("x" ++ newline :: "2,2")%go).
  vm_compute. reflexivity.
Defined.

(** ** White space around a line *)

Module TrimMore.
Import strings.

Lemma stripPrefix_sound (e s r : gostring) :
  stripPrefix e s = Some r -> s = e ++ r.
Proof.
  revert s. induction e as [|a e IH]; intros s H; simpl in H.
  - now injection H as ->.
  - destruct s as [|b s]; [discriminate|].
    destruct (Byte.eqb a b) eqn:E; [|discriminate].
    apply Byte.byte_dec_bl in E. subst b. simpl. f_equal. now apply IH.
Qed.

Lemma stripOne_sound (encs : list gostring) (s r : gostring) :
  stripOne encs s = Some r -> exists e, In e encs /\ s = e ++ r.
Proof.
  induction encs as [|e encs IH]; simpl; intros H; [discriminate|].
  destruct (stripPrefix e s) as [r'|] eqn:E.
  - injection H as ->. exists e. split; [now left|].
    now apply stripPrefix_sound.
  - destruct (IH H) as (e' & He' & Hs). exists e'. split; [now right|exact Hs].
Qed.

Lemma stripOne_nil (encs : list gostring) :
  (forall e, In e encs -> e <> []) -> stripOne encs [] = None.
Proof.
  induction encs as [|e encs IH]; intros Hne; simpl; [reflexivity|].
  destruct e as [|a e]; [exfalso; apply (Hne []); [now left | reflexivity]|].
  simpl. apply IH. intros e' He'. apply Hne. now right.
Qed.

(** When an encoding is found at the front of [s ++ w] but not at the
    front of [s], it reaches into [w]. *)
Lemma stripPrefix_span (e s w r : gostring) :
  stripPrefix e (s ++ w) = Some r -> stripPrefix e s = None ->
  exists t c t', e = s ++ c :: t' /\ w = c :: t.
Proof.
  revert s. induction e as [|a e IH]; intros s H Hs; simpl in *.
  - discriminate.
  - destruct s as [|b s]; simpl in *.
    + destruct w as [|c w]; [discriminate|].
      destruct (Byte.eqb a c) eqn:E; [|discriminate].
      apply Byte.byte_dec_bl in E. subst c. now exists w, a, e.
    + destruct (Byte.eqb a b) eqn:E; [|discriminate].
      apply Byte.byte_dec_bl in E. subst b.
      destruct (IH s H Hs) as (t & c & t' & -> & ->).
      now exists t, c, t'.
Qed.

Section Encodings.

Variable encs : list gostring.

Hypothesis strip_enc :
  forall e r, In e encs -> stripOne encs (e ++ r) = Some r.
Hypothesis enc_not_empty : forall e, In e encs -> e <> [].
Hypothesis span_free : spanFree encs = true.

(** What [trimLeft] takes off is white space, and what it leaves does
    not start with any. *)
Lemma trimLeft_decompose (fuel : nat) (s : gostring) :
  (length s <= fuel)%nat ->
  exists ws, concatOf encs ws
             /\ s = ws ++ trimLeft encs fuel s
             /\ stripOne encs (trimLeft encs fuel s) = None.
Proof.
  revert s. induction fuel as [|fuel IH]; intros s Hfuel.
  - destruct s; [|simpl in Hfuel; lia].
    exists []. repeat split; [constructor|]. now apply stripOne_nil.
  - simpl. destruct (stripOne encs s) as [r|] eqn:E.
    + destruct (stripOne_sound _ _ _ E) as (e & He & ->).
      assert (Hr : (length r <= fuel)%nat).
      { rewrite length_app in Hfuel. pose proof (enc_not_empty e He).
        destruct e; [congruence | simpl in Hfuel; lia]. }
      destruct (IH r Hr) as (ws & Hws & Hrs & Hnone).
      exists (e ++ ws). split; [now constructor|]. split; [|exact Hnone].
      rewrite <- app_assoc. now f_equal.
    + exists []. repeat split; [constructor | exact E].
Qed.

(** A text that does not start with white space has no front part
    that does. *)
Lemma stripOne_prefix (a b : gostring) :
  stripOne encs (a ++ b) = None -> stripOne encs a = None.
Proof.
  intros H. destruct (stripOne encs a) as [r|] eqn:E; [|reflexivity].
  destruct (stripOne_sound _ _ _ E) as (e & He & ->).
  rewrite <- app_assoc, (strip_enc _ _ He) in H. discriminate.
Qed.

Lemma concatOf_head (w : gostring) :
  concatOf encs w ->
  w = [] \/ exists c t e, w = c :: t /\ In e encs /\ hd_error e = Some c.
Proof.
  intros Hw. induction Hw as [|e ws He Hws IH]; [now left|].
  right. pose proof (enc_not_empty e He).
  destruct e as [|c e]; [congruence|].
  exists c, (e ++ ws), (c :: e). now repeat split.
Qed.

(** White space after a text that is not empty and does not start
    with white space does not make it start with white space. *)
Lemma stripOne_app_space (s w : gostring) :
  stripOne encs s = None -> s <> [] -> concatOf encs w ->
  stripOne encs (s ++ w) = None.
Proof.
  intros Hs Hne Hw.
  destruct (stripOne encs (s ++ w)) as [r|] eqn:E; [|reflexivity].
  exfalso.
  assert (Hall : forall e, In e encs -> stripPrefix e s = None).
  { clear E. revert Hs. generalize encs as l.
    induction l as [|e' l IH]; simpl; intros Hs e He; [contradiction|].
    destruct (stripPrefix e' s) eqn:E'; [discriminate|].
    destruct He as [<- | He]; [exact E' | now apply IH]. }
  assert (Hex : exists e r', In e encs /\ stripPrefix e (s ++ w) = Some r').
  { clear Hall Hs. revert E. generalize encs as l.
    induction l as [|e' l IH]; simpl; intros E; [discriminate|].
    destruct (stripPrefix e' (s ++ w)) as [r'|] eqn:E'.
    - exists e', r'. split; [now left | exact E'].
    - destruct (IH E) as (e & r' & He & Hr). exists e, r'.
      split; [now right | exact Hr]. }
  destruct Hex as (e & r' & He & Hr).
  destruct (stripPrefix_span _ _ _ _ Hr (Hall e He)) as (t & c & t' & -> & ->).
  destruct (concatOf_head _ Hw) as [Hnil | (c' & t0 & e' & Hw' & He' & Hhd)];
    [discriminate|].
  injection Hw' as <- <-.
  unfold spanFree in span_free.
  rewrite forallb_forall in span_free.
  specialize (span_free _ He). rewrite forallb_forall in span_free.
  assert (Hc : In c (tl (s ++ c :: t'))).
  { destruct s as [|b s]; [congruence|]. simpl. apply in_or_app.
    right. now left. }
  specialize (span_free _ Hc). rewrite forallb_forall in span_free.
  specialize (span_free _ He').
  destruct e' as [|c0 e']; [discriminate|].
  injection Hhd as ->.
  now rewrite (Byte.byte_dec_lb eq_refl) in span_free.
Qed.

End Encodings.

Lemma rev_rev_encodings :
  map (@rev byte) (map (@rev byte) spaceEncodings) = spaceEncodings.
Proof. reflexivity. Qed.

Lemma whiteSpace_rev (w : gostring) :
  concatOf (map (@rev byte) spaceEncodings) w -> whiteSpace (rev w).
Proof.
  intros Hw. unfold whiteSpace. rewrite <- rev_rev_encodings.
  now apply TrimFacts.concatOf_rev.
Qed.

(** A line is white space, then what [TrimSpace] keeps of it, then
    white space; and what is kept neither starts nor ends with white
    space. *)
Lemma TrimSpace_decompose (line : gostring) :
  exists ws1 ws2,
    whiteSpace ws1 /\ whiteSpace ws2
    /\ line = ws1 ++ TrimSpace line ++ ws2
    /\ stripOne spaceEncodings (TrimSpace line ++ ws2) = None
    /\ endsWithSpace (TrimSpace line) = false.
Proof.
  destruct (trimLeft_decompose spaceEncodings TrimFacts.space_not_empty
              (length line) line (le_n _))
    as (ws1 & Hws1 & Hline & Hstart).
  fold (TrimLeftSpace line) in Hline, Hstart.
  set (m := TrimLeftSpace line) in *.
  destruct (trimLeft_decompose (map (@rev byte) spaceEncodings)
              TrimFacts.space_rev_not_empty (length (rev m)) (rev m) (le_n _))
    as (ws2 & Hws2 & Hm & Hend).
  rewrite length_rev in Hm, Hend.
  assert (Hcore : m = TrimSpace line ++ rev ws2).
  { unfold TrimSpace, TrimRightSpace. fold m.
    rewrite <- rev_app_distr, <- Hm. now rewrite rev_involutive. }
  exists ws1, (rev ws2). split; [exact Hws1|].
  split; [now apply whiteSpace_rev|].
  split; [now rewrite <- Hcore|].
  split; [now rewrite <- Hcore|].
  unfold endsWithSpace, TrimSpace, TrimRightSpace. fold m.
  rewrite rev_involutive, Hend. reflexivity.
Qed.

Lemma TrimSpace_whiteSpace (w : gostring) : whiteSpace w -> TrimSpace w = [].
Proof.
  intros Hw. unfold TrimSpace, TrimLeftSpace.
  rewrite <- (app_nil_r w) at 2.
  rewrite (TrimFacts.trimLeft_concat _ TrimFacts.strip_space
             TrimFacts.space_not_empty w []);
    [reflexivity | exact Hw | reflexivity | apply le_n].
Qed.

(** White space added around a line does not change what [TrimSpace]
    keeps of it. *)
Lemma TrimSpace_around (lead line trail : gostring) :
  whiteSpace lead -> whiteSpace trail ->
  TrimSpace (lead ++ line ++ trail) = TrimSpace line.
Proof.
  intros Hl Ht.
  destruct (TrimSpace_decompose line)
    as (ws1 & ws2 & Hws1 & Hws2 & Hline & Hstart & Hend).
  destruct (TrimSpace line) as [|b core] eqn:Hcore.
  - rewrite Hline. simpl. apply TrimSpace_whiteSpace.
    repeat apply TrimFacts.concatOf_app; assumption.
  - rewrite Hline at 1.
    replace (lead ++ (ws1 ++ (b :: core) ++ ws2) ++ trail)
      with ((lead ++ ws1) ++ (b :: core) ++ (ws2 ++ trail))
      by (rewrite <- !app_assoc; reflexivity).
    apply TrimFacts.TrimSpace_surrounded.
    + now apply TrimFacts.concatOf_app.
    + now apply TrimFacts.concatOf_app.
    + apply (stripOne_app_space spaceEncodings TrimFacts.space_not_empty).
      * reflexivity.
      * apply (stripOne_prefix spaceEncodings TrimFacts.strip_space _ ws2).
        exact Hstart.
      * discriminate.
      * now apply TrimFacts.concatOf_app.
    + exact Hend.
Qed.

End TrimMore.

(** X4: white space before and after a line that is not empty never
    changes what [parseLine] returns for it, pair and error alike; a
    carriage return left at the end of a line by a CR LF line ending
    is such white space. *)
Theorem parseLine_white_space_around
  (ParseFloat : gostring -> float * option NumError)
  (lead line trail : gostring) :
  line <> [] ->
  strings.whiteSpace lead -> strings.whiteSpace trail ->
  parseLine ParseFloat (lead ++ line ++ trail) = parseLine ParseFloat line.
Proof.
  intros Hne Hl Ht. unfold parseLine.
  rewrite (TrimMore.TrimSpace_around lead line trail Hl Ht).
  destruct line as [|b line]; [congruence|].
  rewrite !length_app. cbn [length].
  replace (0 <? length lead + (S (length line) + length trail))%nat
    with true by (symmetry; apply Nat.ltb_lt; lia).
  reflexivity.
Qed.

Lemma parseLine_white_space_around_witness :
  parseLine Decimal.ParseFloat ([] ++ "1.5,x"%go ++ [x0d])
  = parseLine Decimal.ParseFloat "1.5,x"%go.
Proof.
  apply (parseLine_white_space_around Decimal.ParseFloat [] "1.5,x"%go [x0d]).
  - discriminate.
  - constructor.
  - apply (strings.concatOf_cons _ [x0d] []); [|constructor].
    simpl. tauto.
Defined.

(** ** Series the regression cannot handle *)

Section RegressionMore.

Open Scope float_scope.

Lemma is_finite_false (x : float) :
  PrimFloat.is_nan x || PrimFloat.is_infinity x = true ->
  PrimFloat.is_finite x = false.
Proof. unfold PrimFloat.is_finite. now intros ->. Qed.

(** The square root of a number below zero is NaN. *)
Lemma sqrt_negative (x : float) :
  (x <? 0) = true -> PrimFloat.is_nan (PrimFloat.sqrt x) = true.
Proof.
  unfold PrimFloat.is_nan.
  rewrite ltb_spec, FloatAxioms.eqb_spec, sqrt_spec.
  change (Prim2SF 0) with (S754_zero false).
  destruct (Prim2SF x) as [s|s| |s m e]; try discriminate;
    destruct s; try discriminate; reflexivity.
Qed.

Lemma two_points_divisor (series : list Point) :
  length series = 2%nat ->
  PrimFloat.is_zero (float64_of_int (length series) - 2) = true.
Proof. now intros ->. Qed.

End RegressionMore.

Section EmptyResponse.

Variable ParseFloat : gostring -> float * option NumError.
Variable jsonNumber : float -> gostring.

(** The revision answers with the empty text as soon as one of the
    four results of the regression is not finite. *)
Lemma dataSampleProcess_not_finite (src : gostring) :
  (let '(slope, intercept, stdError, correlation) :=
     linearRegression (ingest ParseFloat src) in
   PrimFloat.is_finite slope && PrimFloat.is_finite intercept
   && PrimFloat.is_finite stdError && PrimFloat.is_finite correlation)
  = false ->
  fst (Marshalled.dataSampleProcess ParseFloat jsonNumber src) = [].
Proof.
  intros H.
  pose proof (dataSampleProcess_cases ParseFloat jsonNumber src) as Hc.
  cbv zeta in Hc.
  destruct (linearRegression (ingest ParseFloat src))
    as [[[slope intercept] stdError] correlation].
  unfold Marshalled.finiteSample, Marshalled.dataSampleOf in Hc.
  cbn [Marshalled.Regression Marshalled.Slope Marshalled.Intercept
       Marshalled.StdError Marshalled.Correlation Marshalled.Series] in Hc.
  replace (PrimFloat.is_finite slope
           && (PrimFloat.is_finite intercept
               && (PrimFloat.is_finite stdError
                   && PrimFloat.is_finite correlation)))
    with false in Hc by (rewrite <- H, !andb_assoc; reflexivity).
  now rewrite andb_false_r in Hc.
Qed.

End EmptyResponse.

(** X5: on every series of exactly two pairs the standard error that
    [linearRegression] returns is NaN or an infinity (the divisor
    n - 2 is zero), and the revision with [encoding/json] therefore
    answers every submission from which exactly two pairs are taken
    with the empty text. *)
Theorem two_points_no_standard_error
  (ParseFloat : gostring -> float * option NumError)
  (jsonNumber : float -> gostring) :
  (forall series, length series = 2%nat ->
     exists slope intercept stdError correlation,
       linearRegression series = (slope, intercept, stdError, correlation)
       /\ PrimFloat.is_nan stdError || PrimFloat.is_infinity stdError = true)
  /\ (forall src, length (ingest ParseFloat src) = 2%nat ->
        fst (Marshalled.dataSampleProcess ParseFloat jsonNumber src) = []).
Proof.
  assert (H : forall series, length series = 2%nat ->
     PrimFloat.is_nan (specStdError series)
     || PrimFloat.is_infinity (specStdError series) = true).
  { intros series Hlen. unfold specStdError.
    apply sqrt_div_zero. now apply two_points_divisor. }
  split.
  - intros series Hlen. rewrite linearRegression_spec.
    do 4 eexists. split; [reflexivity | now apply H].
  - intros src Hlen. apply dataSampleProcess_not_finite.
    rewrite linearRegression_spec.
    rewrite (is_finite_false _ (H _ Hlen)).
    now rewrite andb_false_r.
Qed.

Lemma two_points_witness :
  length (ingest Decimal.ParseFloat ("1,1" ++ newline :: "2,3")%go) = 2%nat
  /\ fst (Marshalled.dataSampleProcess Decimal.ParseFloat (fun _ => "0"%go)
            ("1,1" ++ newline :: "2,3")%go) = [].
Proof.
  assert (H : length (ingest Decimal.ParseFloat
                        ("1,1" ++ newline :: "2,3")%go) = 2%nat)
    by (vm_compute; reflexivity).
  split; [exact H|].
  exact (proj2 (two_points_no_standard_error Decimal.ParseFloat
                  (fun _ => "0"%go)) _ H).
Defined.

(** X6: whenever the quotient (St - Sr) / St comes out below zero,
    the correlation that [linearRegression] returns is NaN, and the
    revision with [encoding/json] answers the submission with the
    empty text. *)
Theorem negative_radicand_no_correlation
  (ParseFloat : gostring -> float * option NumError)
  (jsonNumber : float -> gostring) (src : gostring) :
  let series := ingest ParseFloat src in
  ((St series - Sr series) / St series <? 0)%float = true ->
  (exists slope intercept stdError correlation,
      linearRegression series = (slope, intercept, stdError, correlation)
      /\ PrimFloat.is_nan correlation = true)
  /\ fst (Marshalled.dataSampleProcess ParseFloat jsonNumber src) = [].
Proof.
  cbv zeta. intros Hneg.
  pose proof (sqrt_negative _ Hneg) as Hnan.
  fold (specCorrelation (ingest ParseFloat src)) in Hnan.
  split.
  - rewrite linearRegression_spec. do 4 eexists.
    split; [reflexivity | exact Hnan].
  - apply dataSampleProcess_not_finite. rewrite linearRegression_spec.
    assert (Hfin : PrimFloat.is_finite
                     (specCorrelation (ingest ParseFloat src)) = false)
      by (apply is_finite_false; now rewrite Hnan).
    rewrite Hfin. now rewrite andb_false_r.
Qed.

Lemma negative_radicand_witness :
  let src := ("0,1" ++ newline :: "1,2" ++ newline :: "2,3")%go in
  let series := ingest Decimal.ParseFloat src in
  ((St series - Sr series) / St series <? 0)%float = true
  /\ fst (Marshalled.dataSampleProcess Decimal.ParseFloat (fun _ => "0"%go) src)
     = [].
Proof.
  cbv zeta.
  set (src := ("0,1" ++ newline :: "1,2" ++ newline :: "2,3")%go).
  assert (H : ((St (ingest Decimal.ParseFloat src)
                - Sr (ingest Decimal.ParseFloat src))
               / St (ingest Decimal.ParseFloat src) <? 0)%float = true)
    by (vm_compute; reflexivity).
  split; [exact H|].
  exact (proj2 (negative_radicand_no_correlation Decimal.ParseFloat
                  (fun _ => "0"%go) src H)).
Defined.

Section NoValidLine.

Variable ParseFloat : gostring -> float * option NumError.

(** With every line rejected, what [goplot.go] answers. *)
Lemma dataSampleProcess_rejected_document
  (FormatFloat : float -> byte -> Z -> Z -> gostring)
  (Sprintf_f : float -> gostring) (src : gostring) :
  (forall line, In line (strings.SplitN src newline MAXLINES) ->
                snd (parseLine ParseFloat line) <> None) ->
  HandWritten.dataSampleProcess ParseFloat FormatFloat Sprintf_f src
  = ("{series:[]," ++ [newline]
     ++ "regressionLine:{slope:" ++ Sprintf_f nan
     ++ ",intercept:" ++ Sprintf_f nan
     ++ ",stdError:" ++ Sprintf_f neg_zero
     ++ ",correlation:" ++ Sprintf_f nan ++ "},}")%go.
Proof.
  intros Hall. rewrite dataSampleProcess_parts.
  rewrite (ingest_rejected ParseFloat src Hall), linearRegression_empty.
  unfold HandWritten.encodeSample. flatten_app. reflexivity.
Qed.

(** With every line rejected, what the revision answers. *)
Lemma dataSampleProcess_rejected_empty
  (jsonNumber : float -> gostring) (src : gostring) :
  (forall line, In line (strings.SplitN src newline MAXLINES) ->
                snd (parseLine ParseFloat line) <> None) ->
  fst (Marshalled.dataSampleProcess ParseFloat jsonNumber src) = [].
Proof.
  intros Hall. unfold Marshalled.dataSampleProcess.
  fold (ingest ParseFloat src).
  rewrite (ingest_rejected ParseFloat src Hall), linearRegression_empty.
  reflexivity.
Qed.

End NoValidLine.

(** X7: when [parseLine] returns an error for every line of the
    submission, [dataSampleProcess] of [goplot.go] still answers with
    a document: the series is empty and the regression line holds what
    [%f] writes for NaN, NaN, -0 and NaN. *)
Theorem dataSampleProcess_no_valid_line_document
  (ParseFloat : gostring -> float * option NumError)
  (FormatFloat : float -> byte -> Z -> Z -> gostring)
  (Sprintf_f : float -> gostring) (src : gostring) :
  (forall line, In line (strings.SplitN src newline MAXLINES) ->
                snd (parseLine ParseFloat line) <> None) ->
  HandWritten.dataSampleProcess ParseFloat FormatFloat Sprintf_f src
  = ("{series:[]," ++ [newline]
     ++ "regressionLine:{slope:" ++ Sprintf_f nan
     ++ ",intercept:" ++ Sprintf_f nan
     ++ ",stdError:" ++ Sprintf_f neg_zero
     ++ ",correlation:" ++ Sprintf_f nan ++ "},}")%go.
Proof. apply dataSampleProcess_rejected_document. Qed.

Lemma dataSampleProcess_no_valid_line_document_witness :
  HandWritten.dataSampleProcess Decimal.ParseFloat
    (fun _ _ _ _ => "0"%go) (fun _ => "NaN"%go) "x,1"%go
  = ("{series:[]," ++ [newline]
     ++ "regressionLine:{slope:NaN,intercept:NaN,stdError:NaN,"
     ++ "correlation:NaN},}")%go.
Proof.
  apply (dataSampleProcess_no_valid_line_document Decimal.ParseFloat
           (fun _ _ _ _ => "0"%go) (fun _ => "NaN"%go) "x,1"%go).
  intros line Hin. vm_compute in Hin.
  destruct Hin as [<- | Hin]; [vm_compute; discriminate | contradiction].
Defined.

(** ** The demo point *)

Lemma gostring_eqb_eq (a b : gostring) : gostring_eqb a b = true <-> a = b.
Proof.
  revert b. induction a as [|x a IH]; intros [|y b]; simpl;
    try (split; [discriminate | discriminate]); [tauto|].
  rewrite andb_true_iff, IH. split.
  - intros [E ->]. apply Byte.byte_dec_bl in E. now subst.
  - intros H. injection H as -> ->. split; [|reflexivity].
    now apply Byte.byte_dec_lb.
Qed.

Section PointDemoFacts.

Import PointDemo.
Open Scope gostring_scope.

Variable ParseFloat : gostring -> float * option NumError.
Variable Sprintf_f : float -> gostring.

Lemma serveAll_app (pt : Point) (reqs1 reqs2 : list Request) :
  serveAll ParseFloat Sprintf_f pt (reqs1 ++ reqs2)
  = serveAll ParseFloat Sprintf_f
      (serveAll ParseFloat Sprintf_f pt reqs1) reqs2.
Proof. unfold serveAll. apply fold_left_app. Qed.

Lemma ServeHTTP_not_POST (pt : Point) (req : Request) :
  Method req <> "POST" ->
  Y (fst (ServeHTTP ParseFloat Sprintf_f pt req)) = Y pt.
Proof.
  intros Hm. unfold ServeHTTP.
  destruct (gostring_eqb (Method req) "GET"); [reflexivity|].
  destruct (gostring_eqb (Method req) "POST") eqn:E; [|reflexivity].
  apply gostring_eqb_eq in E. contradiction.
Qed.

Lemma ServeHTTP_POST (pt : Point) (req : Request) :
  Method req = "POST" ->
  fst (ServeHTTP ParseFloat Sprintf_f pt req)
  = mkPoint (fst (ParseFloat (FormValue req "x")))
      (fst (ParseFloat (FormValue req "y"))).
Proof.
  intros Hm. unfold ServeHTTP. rewrite Hm.
  change (gostring_eqb "POST" "GET") with false.
  change (gostring_eqb "POST" "POST") with true. cbv iota.
  destruct (ParseFloat (FormValue req "x")) as [x ex].
  destruct (ParseFloat (FormValue req "y")) as [y ey]. reflexivity.
Qed.

Lemma ServeHTTP_reply (pt : Point) (req : Request) :
  snd (ServeHTTP ParseFloat Sprintf_f pt req)
  = Fprint ("point is "
            ++ String Sprintf_f (fst (ServeHTTP ParseFloat Sprintf_f pt req))
            ++ [newline]).
Proof.
  unfold ServeHTTP, String. cbn [fst snd]. f_equal.
  flatten_app. reflexivity.
Qed.

End PointDemoFacts.

(** X8: requests other than POST never change the Y of the demo
    point, however many of them are served. *)
Theorem serveAll_keeps_Y
  (ParseFloat : gostring -> float * option NumError)
  (Sprintf_f : float -> gostring) (reqs : list Request) (pt : Point) :
  (forall req, In req reqs -> Method req <> "POST"%go) ->
  Y (PointDemo.serveAll ParseFloat Sprintf_f pt reqs) = Y pt.
Proof.
  revert pt. induction reqs as [|req reqs IH]; intros pt Hall;
    [reflexivity|].
  change (PointDemo.serveAll ParseFloat Sprintf_f pt (req :: reqs))
    with (PointDemo.serveAll ParseFloat Sprintf_f
            (fst (PointDemo.ServeHTTP ParseFloat Sprintf_f pt req)) reqs).
  rewrite IH by (intros r Hr; apply Hall; now right).
  apply ServeHTTP_not_POST. apply Hall. now left.
Qed.

Lemma serveAll_keeps_Y_witness :
  let get := mkRequest "GET"%go (fun _ => "7"%go) in
  let put := mkRequest "PUT"%go (fun _ => "7"%go) in
  Y (PointDemo.serveAll Decimal.ParseFloat (fun _ => "0"%go)
       (mkPoint 0 5)%float [get; put; get]) = 5%float.
Proof.
  cbv zeta.
  apply (serveAll_keeps_Y Decimal.ParseFloat (fun _ => "0"%go)
           [mkRequest "GET"%go (fun _ => "7"%go);
            mkRequest "PUT"%go (fun _ => "7"%go);
            mkRequest "GET"%go (fun _ => "7"%go)] (mkPoint 0 5)%float).
  intros req Hin. simpl in Hin.
  repeat (destruct Hin as [<- | Hin]; [discriminate|]). contradiction.
Defined.

(** X9: a POST sets both coordinates of the demo point from the form
    values [x] and [y] alone, to the numbers [ParseFloat] returns for
    them, whatever the point was before and whether or not
    [ParseFloat] also returns an error (a missing form value is the
    empty string); and the reply shows the point after the request, as
    [String] writes it, between ["point is "] and a line feed. *)
Theorem serveAll_after_POST
  (ParseFloat : gostring -> float * option NumError)
  (Sprintf_f : float -> gostring)
  (pt : Point) (reqs : list Request) (post : Request) :
  Method post = "POST"%go ->
  let pt' :=
    mkPoint (fst (ParseFloat (FormValue post "x"%go)))
      (fst (ParseFloat (FormValue post "y"%go))) in
  PointDemo.serveAll ParseFloat Sprintf_f pt (reqs ++ [post]) = pt'
  /\ snd (PointDemo.ServeHTTP ParseFloat Sprintf_f
            (PointDemo.serveAll ParseFloat Sprintf_f pt reqs) post)
     = Fprint ("point is "%go ++ PointDemo.String Sprintf_f pt' ++ [newline]).
Proof.
  intros Hm. cbv zeta. split.
  - rewrite serveAll_app. unfold PointDemo.serveAll at 1. cbn [fold_left].
    now apply ServeHTTP_POST.
  - rewrite ServeHTTP_reply. now rewrite ServeHTTP_POST.
Qed.

Lemma serveAll_after_POST_witness :
  let get := mkRequest "GET"%go (fun _ => ""%go) in
  let post := mkRequest "POST"%go (fun _ => ""%go) in
  PointDemo.serveAll Decimal.ParseFloat (fun _ => "0"%go)
    (mkPoint 3 4)%float ([get; get] ++ [post])
  = (mkPoint 0 0)%float.
Proof.
  cbv zeta.
  exact (proj1 (serveAll_after_POST Decimal.ParseFloat (fun _ => "0"%go)
                  (mkPoint 3 4)%float
                  [mkRequest "GET"%go (fun _ => ""%go);
                   mkRequest "GET"%go (fun _ => ""%go)]
                  (mkRequest "POST"%go (fun _ => ""%go)) eq_refl)).
Defined.

(** ** The handlers *)

(** X10: a POST to [dataSampleServer] whose [dataseries] holds no line
    that [parseLine] accepts (a request without [dataseries] is one:
    its form value is the empty string) gets no error status: the
    revision with [encoding/json] writes an empty body, and
    [goplot.go] writes the document with the empty series and the
    NaN regression line. *)
Theorem dataSampleServer_POST_no_valid_line
  (Getwd : gostring * option OSError)
  (ParseFloat : gostring -> float * option NumError)
  (jsonNumber : float -> gostring)
  (FormatFloat : float -> byte -> Z -> Z -> gostring)
  (Sprintf_f : float -> gostring) (req : Request) :
  Method req = "POST"%go ->
  (forall line,
      In line (strings.SplitN (FormValue req "dataseries"%go) newline MAXLINES) ->
      snd (parseLine ParseFloat line) <> None) ->
  dataSampleServer Getwd
    (fun src => fst (Marshalled.dataSampleProcess ParseFloat jsonNumber src))
    req
  = Fprint []
  /\ dataSampleServer Getwd
       (HandWritten.dataSampleProcess ParseFloat FormatFloat Sprintf_f) req
     = Fprint ("{series:[]," ++ [newline]
               ++ "regressionLine:{slope:" ++ Sprintf_f nan
               ++ ",intercept:" ++ Sprintf_f nan
               ++ ",stdError:" ++ Sprintf_f neg_zero
               ++ ",correlation:" ++ Sprintf_f nan ++ "},}")%go.
Proof.
  intros Hm Hall. unfold dataSampleServer. rewrite Hm.
  change (gostring_eqb "POST" "GET") with false.
  change (gostring_eqb "POST" "POST") with true. cbv iota zeta.
  split; f_equal.
  - now apply dataSampleProcess_rejected_empty.
  - now apply dataSampleProcess_rejected_document.
Qed.

Lemma dataSampleServer_POST_witness :
  dataSampleServer ("/srv"%go, None)
    (fun src => fst (Marshalled.dataSampleProcess Decimal.ParseFloat
                       (fun _ => "0"%go) src))
    (mkRequest "POST"%go (fun _ => ""%go))
  = Fprint [].
Proof.
  refine (proj1 (dataSampleServer_POST_no_valid_line ("/srv"%go, None)
                   Decimal.ParseFloat (fun _ => "0"%go)
                   (fun _ _ _ _ => "0"%go) (fun _ => "0"%go)
                   (mkRequest "POST"%go (fun _ => ""%go)) eq_refl _)).
  intros line Hin. vm_compute in Hin.
  destruct Hin as [<- | Hin]; [vm_compute; discriminate | contradiction].
Defined.

(** X11: whatever the request, the only files the two handlers serve
    are [client/graph.js] ([fileServe]) and [client/viz.html]
    ([dataSampleServer], for a GET only) under the working directory;
    when [os.Getwd] fails they answer 500 instead, and
    [dataSampleServer] answers every method other than GET and POST
    with 405. *)
Theorem handlers_serve_own_files_only
  (Getwd : gostring * option OSError) (process : gostring -> gostring)
  (req : Request) :
  (forall name, fileServe Getwd req = ServeFile name ->
                name = (fst Getwd ++ "/client/graph.js")%go
                /\ snd Getwd = None)
  /\ (forall name, dataSampleServer Getwd process req = ServeFile name ->
                   name = (fst Getwd ++ "/client/viz.html")%go
                   /\ snd Getwd = None /\ Method req = "GET"%go)
  /\ (snd Getwd <> None ->
      fileServe Getwd req = WriteHeader 500
      /\ (Method req = "GET"%go ->
          dataSampleServer Getwd process req = WriteHeader 500))
  /\ (Method req <> "GET"%go -> Method req <> "POST"%go ->
      dataSampleServer Getwd process req = WriteHeader 405).
Proof.
  destruct Getwd as [cwd [err|]]; unfold fileServe, dataSampleServer, serveError;
    cbn [fst snd].
  - split; [discriminate|]. split.
    + intros name.
      destruct (gostring_eqb (Method req) "GET"); [discriminate|].
      destruct (gostring_eqb (Method req) "POST"); discriminate.
    + split.
      * intros _. split; [reflexivity|]. intros ->. reflexivity.
      * intros Hg Hp.
        destruct (gostring_eqb (Method req) "GET") eqn:Eg;
          [apply gostring_eqb_eq in Eg; contradiction|].
        destruct (gostring_eqb (Method req) "POST") eqn:Ep;
          [apply gostring_eqb_eq in Ep; contradiction|]. reflexivity.
  - split; [intros name H; injection H as <-; now split|]. split.
    + intros name.
      destruct (gostring_eqb (Method req) "GET") eqn:Eg.
      * intros H. injection H as <-. apply gostring_eqb_eq in Eg. now repeat split.
      * destruct (gostring_eqb (Method req) "POST"); discriminate.
    + split; [intros H; now exfalso|].
      intros Hg Hp.
      destruct (gostring_eqb (Method req) "GET") eqn:Eg;
        [apply gostring_eqb_eq in Eg; contradiction|].
      destruct (gostring_eqb (Method req) "POST") eqn:Ep;
        [apply gostring_eqb_eq in Ep; contradiction|]. reflexivity.
Qed.

Lemma handlers_serve_own_files_only_witness :
  dataSampleServer ("/srv"%go, None) (fun src => src)
    (mkRequest "DELETE"%go (fun _ => "../../etc/passwd"%go))
  = WriteHeader 405.
Proof.
  apply (proj2 (proj2 (proj2
           (handlers_serve_own_files_only ("/srv"%go, None) (fun src => src)
              (mkRequest "DELETE"%go (fun _ => "../../etc/passwd"%go)))))).
  - discriminate.
  - discriminate.
Defined.
